(** * Posts API (routes/api/posts.js): a shallow embedding and its properties

    The route module wires eight HTTP handlers to a document store.  Each
    handler is an [async (req, res) => { try { ... } catch (err) { ... } }]
    function: it loads a post with [Post.findById], inspects or mutates the
    embedded [likes] / [comments] arrays with the JavaScript array methods
    ([filter], [map], [indexOf], [find], [unshift], [splice]), persists with
    [post.save()] and answers through [res].

    The embedding keeps that shape:
    - the array methods are functions on lists, with JavaScript's results
      out of range ([indexOf] answers [-1], [splice] counts a negative start
      from the end);
    - the store is a finite map from post ids to post documents, threaded
      through a state-and-exception monad;
    - [try]/[catch] is [try_catch]; a [throw] outside of any [try] leaves the
      handler without a response ([Rejected]).

    The caller's id, [req.user.id], is the one the auth middleware read from
    the token.  The listing route, [GET api/posts], only reads the store and
    is left out. *)

From Stdlib Require Import ZArith String List.
From stdpp Require Import base gmap list strings fin_maps sorting.

Local Open Scope string_scope.
Local Open Scope list_scope.
Local Open Scope Z_scope.

(** ** JavaScript values used by the handlers *)

(** [a === b] on two strings. *)
Definition strict_eq (a b : string) : bool := bool_decide (a = b).

Module JsArray.

(** [arr.unshift(x)]: the array after the call. *)
Definition unshift {A} (arr : list A) (x : A) : list A := x :: arr.

(** [arr.filter(f)] *)
Definition filter {A} (f : A → bool) (arr : list A) : list A :=
  List.filter f arr.

(** [arr.map(f)] *)
Definition map {A B} (f : A → B) (arr : list A) : list B := List.map f arr.

(** [arr.find(f)]: [None] stands for [undefined]. *)
Definition find {A} (f : A → bool) (arr : list A) : option A :=
  List.find f arr.

(** [arr.length] *)
Definition length {A} (arr : list A) : Z := Z.of_nat (List.length arr).

Fixpoint indexOf_from (arr : list string) (x : string) (k : Z) : Z :=
  match arr with
  | [] => -1
  | y :: rest => if strict_eq y x then k else indexOf_from rest x (k + 1)
  end.

(** [arr.indexOf(x)]: the first index holding [x], or [-1]. *)
Definition indexOf (arr : list string) (x : string) : Z :=
  indexOf_from arr x 0.

(** [arr.splice(start, deleteCount)]: the array after the call.  A negative
    [start] counts from the end, and both numbers are clamped to the
    array. *)
Definition splice {A} (arr : list A) (start deleteCount : Z) : list A :=
  let len := length arr in
  let actualStart :=
    if start <? 0 then Z.max (len + start) 0 else Z.min start len in
  let actualDeleteCount := Z.min (Z.max deleteCount 0) (len - actualStart) in
  take (Z.to_nat actualStart) arr
    ++ drop (Z.to_nat (actualStart + actualDeleteCount)) arr.

End JsArray.

(** ** Documents

    The schemas live in models/Post.js and models/User.js, which the route
    module requires; the fields below are the ones the handlers read and
    write. *)

Module Like.
(** Modelled from the spec: the Like sub-document of models/Post.js, with its
    one field, the liking user's id. *)
Record t := mk { user : string }.
End Like.

Module Comment.
(** Modelled from the spec: the Comment sub-document of models/Post.js; [id]
    and [date] are given by the store when the comment is created. *)
Record t := mk {
  id : string;
  text : string;
  name : string;
  avatar : string;
  user : string;
  date : Z
}.
End Comment.

Module Post.
(** Modelled from the spec: the Post document of models/Post.js.  The
    document's own id is the key under which the store holds it. *)
Record t := mk {
  text : string;
  name : string;
  avatar : string;
  user : string;
  likes : list Like.t;
  comments : list Comment.t;
  date : Z
}.

Definition with_likes (p : t) (l : list Like.t) : t :=
  mk (text p) (name p) (avatar p) (user p) l (comments p) (date p).

Definition with_comments (p : t) (c : list Comment.t) : t :=
  mk (text p) (name p) (avatar p) (user p) (likes p) c (date p).
End Post.

Module User.
(** Modelled from the spec: the display fields of models/User.js that the
    handlers copy into posts and comments. *)
Record t := mk { name : string; avatar : string }.
End User.

(** ** Store, exceptions and the handler monad *)

Record State := mkState {
  posts : gmap string Post.t;
  users : gmap string User.t
}.

Definition set_posts (st : State) (m : gmap string Post.t) : State :=
  mkState m (users st).

Inductive Exn :=
| CastError (kind : string)
| TypeError (message : string).

(** [err.kind]: only the store's cast failure carries one. *)
Definition kind (err : Exn) : option string :=
  match err with
  | CastError k => Some k
  | TypeError _ => None
  end.

Inductive Result (A : Type) :=
| Ok (a : A)
| Throw (err : Exn).
Arguments Ok {A} a.
Arguments Throw {A} err.

Definition M (A : Type) : Type := State → Result A * State.

Definition ret {A} (a : A) : M A := fun st => (Ok a, st).

Definition throw {A} (err : Exn) : M A := fun st => (Throw err, st).

Definition bind {A B} (c : M A) (k : A → M B) : M B :=
  fun st =>
    match c st with
    | (Ok a, st') => k a st'
    | (Throw err, st') => (Throw err, st')
    end.

Declare Scope handler_scope.
Delimit Scope handler_scope with handler.
Notation "x <- c ;; k" := (bind c (fun x => k))
  (at level 100, c at next level, right associativity) : handler_scope.
Notation "c ;;; k" := (bind c (fun _ => k))
  (at level 100, k at level 200, right associativity) : handler_scope.

(** Reading a property of [null]/[undefined] throws a [TypeError]. *)
Definition deref {A} (o : option A) : M A :=
  match o with
  | Some a => ret a
  | None => throw (TypeError "Cannot read properties of null")
  end.

(** ** Responses *)

Record FieldError := mkFieldError { param : string; msg : string }.

Inductive Body :=
| JsonMsg (m : string)
| JsonErrors (errors : list FieldError)
| JsonPost (id : string) (p : Post.t)
| JsonLikes (l : list Like.t)
| JsonComments (c : list Comment.t)
| Text (s : string).

Record Response := mkResponse { status : Z; body : Body }.

(** [res.json(b)] answers with the default status, 200. *)
Definition json (b : Body) : Response := mkResponse 200 b.
(** [res.status(n).json(b)] and [res.status(n).send(s)] *)
Definition status_json (n : Z) (b : Body) : Response := mkResponse n b.
Definition status_send (n : Z) (s : string) : Response := mkResponse n (Text s).

Inductive Outcome :=
| Sent (r : Response)
| Rejected (err : Exn).

Definition Handler : Type := State → Outcome * State.

(** The status code of the answer, when there is one. *)
Definition status_of (o : Outcome) : option Z :=
  match o with
  | Sent r => Some (status r)
  | Rejected _ => None
  end.

(** [try { body } catch (err) { handler }], the whole of a route's callback. *)
Definition try_catch (body : M Response) (handler : Exn → Response) : Handler :=
  fun st =>
    match body st with
    | (Ok r, st') => (Sent r, st')
    | (Throw err, st') => (Sent (handler err), st')
    end.

(** ** Error taxonomy of the API

    The names the specification gives to the failure responses, read off the
    status code and, for the two 400 business-rule conflicts, the message. *)

Inductive ApiError :=
| ValidationError
| NotFound
| Unauthorized
| AlreadyLiked
| NotLiked
| ServerError.

Definition error_of_response (r : Response) : option ApiError :=
  if status r =? 404 then Some NotFound
  else if status r =? 401 then Some Unauthorized
  else if status r =? 500 then Some ServerError
  else if status r =? 400 then
    match body r with
    | JsonErrors _ => Some ValidationError
    | JsonMsg m =>
        if strict_eq m "Post already liked" then Some AlreadyLiked
        else if strict_eq m "Post has not yet been liked" then Some NotLiked
        else None
    | _ => None
    end
  else None.

(** A handler that threw past its own [catch] has answered nothing. *)
Definition error_of (o : Outcome) : option ApiError :=
  match o with
  | Sent r => error_of_response r
  | Rejected _ => None
  end.

(** ** Request validation

    [check('text', 'Text is required').not().isEmpty()] followed by
    [validationResult(req)]: one error for the field when the text is the
    empty string. *)

Definition validationResult (text : string) : list FieldError :=
  if strict_eq text "" then [mkFieldError "text" "Text is required"] else [].

Definition isEmpty (errors : list FieldError) : bool :=
  match errors with [] => true | _ => false end.

(** [error.array()] where [error] is the binding of line 8,
    [const { error } = require('console')]: [console.error] is a function
    with no [array] property, so the call throws. *)
Definition error_array : Result (list FieldError) :=
  Throw (TypeError "error.array is not a function").

(** ** Sample data

    A store with one post by alice that carries two of her comments, the
    newer one first, and a like by bob. *)

Definition sample_valid (id : string) : bool := negb (strict_eq id "").

Definition comment_new : Comment.t :=
  Comment.mk "c2" "second" "Alice" "alice.png" "alice" 20.
Definition comment_old : Comment.t :=
  Comment.mk "c1" "first" "Alice" "alice.png" "alice" 10.

Definition sample_post : Post.t :=
  Post.mk "hello" "Alice" "alice.png" "alice"
    [Like.mk "bob"] [comment_new; comment_old] 0.

Definition sample_users : gmap string User.t :=
  {[ "alice" := User.mk "Alice" "alice.png"; "bob" := User.mk "Bob" "bob.png" ]}.

Definition sample_store (postId : string) : State :=
  mkState {[ postId := sample_post ]} sample_users.

(** ** The routes *)

Section Routes.

(** The store's cast of a request string to a document id belongs to the
    database driver; the handlers only see whether it succeeds. *)
Variable isValidObjectId : string → bool.

(** Modelled from the spec: [Post.findById(id)] of the Persistence Store
    (models/Post.js over the database driver).  It throws a cast error of
    kind ['ObjectId'] on a malformed id and answers [null] when no document
    has the id. *)
Definition Post_findById (id : string) : M (option Post.t) :=
  fun st =>
    if isValidObjectId id then (Ok (posts st !! id), st)
    else (Throw (CastError "ObjectId"), st).

(** Modelled from the spec: [User.findById(id)] of the User Directory
    (models/User.js), with the same two failures. *)
Definition User_findById (id : string) : M (option User.t) :=
  fun st =>
    if isValidObjectId id then (Ok (users st !! id), st)
    else (Throw (CastError "ObjectId"), st).

(** Modelled from the spec: [post.save()] of the Persistence Store, on the
    document loaded or created under [id]. *)
Definition Post_save (id : string) (p : Post.t) : M unit :=
  fun st => (Ok tt, set_posts st (<[id := p]> (posts st))).

(** Modelled from the spec: [post.deleteOne()] of the Persistence Store, on
    the document loaded under [id]. *)
Definition Post_deleteOne (id : string) : M unit :=
  fun st => (Ok tt, set_posts st (delete id (posts st))).

Definition server_error : Response := status_send 500 "Server Error".

(** The [catch] of [GET /:id] and [DELETE /:id]. *)
Definition catch_invalid_id (err : Exn) : Response :=
  match kind err with
  | Some k =>
      if strict_eq k "ObjectId" then status_json 404 (JsonMsg "Post not found")
      else server_error
  | None => server_error
  end.

Local Open Scope handler_scope.

(** [POST api/posts]; [freshId] and [now] are the id and the date the store
    gives the new document. *)
Definition CreatePost (callerId text freshId : string) (now : Z) : Handler :=
  fun st =>
    let errors := validationResult text in
    if negb (isEmpty errors) then
      (Sent (status_json 400 (JsonErrors errors)), st)
    else
      try_catch
        (user <- User_findById callerId ;;
         u <- deref user ;;
         let newPost :=
           Post.mk text (User.name u) (User.avatar u) callerId [] [] now in
         Post_save freshId newPost ;;;
         ret (json (JsonPost freshId newPost)))
        (fun _ => server_error)
        st.

(** [GET api/posts/:id] *)
Definition GetPost (postId : string) : Handler :=
  try_catch
    (post <- Post_findById postId ;;
     match post with
     | None => ret (status_json 404 (JsonMsg "Post not found"))
     | Some p => ret (json (JsonPost postId p))
     end)
    catch_invalid_id.

(** [DELETE api/posts/:id] *)
Definition DeletePost (callerId postId : string) : Handler :=
  try_catch
    (post <- Post_findById postId ;;
     match post with
     | None => ret (status_json 404 (JsonMsg "Post not found"))
     | Some p =>
         if negb (strict_eq (Post.user p) callerId) then
           ret (status_json 401 (JsonMsg "User not authorize"))
         else
           Post_deleteOne postId ;;;
           ret (json (JsonMsg "Post removed"))
     end)
    catch_invalid_id.

(** [PUT api/posts/like/:id] *)
Definition LikePost (callerId postId : string) : Handler :=
  try_catch
    (post <- Post_findById postId ;;
     p <- deref post ;;
     if JsArray.length
          (JsArray.filter (fun like => strict_eq (Like.user like) callerId)
             (Post.likes p)) >? 0
     then ret (status_json 400 (JsonMsg "Post already liked"))
     else
       let p' :=
         Post.with_likes p (JsArray.unshift (Post.likes p) (Like.mk callerId)) in
       Post_save postId p' ;;;
       ret (json (JsonLikes (Post.likes p'))))
    (fun _ => server_error).

(** [PUT api/posts/unlike/:id] *)
Definition UnlikePost (callerId postId : string) : Handler :=
  try_catch
    (post <- Post_findById postId ;;
     p <- deref post ;;
     if JsArray.length
          (JsArray.filter (fun like => strict_eq (Like.user like) callerId)
             (Post.likes p)) =? 0
     then ret (status_json 400 (JsonMsg "Post has not yet been liked"))
     else
       let removeIndex :=
         JsArray.indexOf (JsArray.map Like.user (Post.likes p)) callerId in
       let p' := Post.with_likes p (JsArray.splice (Post.likes p) removeIndex 1) in
       Post_save postId p' ;;;
       ret (json (JsonLikes (Post.likes p'))))
    (fun _ => server_error).

(** [POST api/posts/comment/:id]; [freshId] and [now] are the id and the date
    the store gives the new sub-document. *)
Definition AddComment (callerId postId text freshId : string) (now : Z)
  : Handler :=
  fun st =>
    let errors := validationResult text in
    if negb (isEmpty errors) then
      match error_array with
      | Ok l => (Sent (status_json 400 (JsonErrors l)), st)
      | Throw err => (Rejected err, st)
      end
    else
      try_catch
        (user <- User_findById callerId ;;
         post <- Post_findById postId ;;
         u <- deref user ;;
         let newComment :=
           Comment.mk freshId text (User.name u) (User.avatar u) callerId now in
         p <- deref post ;;
         let p' :=
           Post.with_comments p (JsArray.unshift (Post.comments p) newComment) in
         Post_save postId p' ;;;
         ret (json (JsonComments (Post.comments p'))))
        (fun _ => server_error)
        st.

(** [DELETE api/posts/comment/:id/:comment_id] *)
Definition DeleteComment (callerId postId commentId : string) : Handler :=
  try_catch
    (post <- Post_findById postId ;;
     p <- deref post ;;
     match
       JsArray.find (fun comment => strict_eq (Comment.id comment) commentId)
         (Post.comments p)
     with
     | None => ret (status_json 404 (JsonMsg "Comment is not found"))
     | Some comment =>
         if negb (strict_eq (Comment.user comment) callerId) then
           ret (status_json 401 (JsonMsg "User is not authorized"))
         else
           let removeIndex :=
             JsArray.indexOf (JsArray.map Comment.user (Post.comments p))
               callerId in
           let p' :=
             Post.with_comments p
               (JsArray.splice (Post.comments p) removeIndex 1) in
           Post_save postId p' ;;;
           ret (json (JsonComments (Post.comments p')))
     end)
    (fun _ => server_error).

(** ** The operations as one state machine, and the likes invariant *)

Inductive Op :=
| OpLikePost (callerId postId : string)
| OpUnlikePost (callerId postId : string)
| OpAddComment (callerId postId text freshId : string) (now : Z)
| OpDeleteComment (callerId postId commentId : string).

Definition run (op : Op) : Handler :=
  match op with
  | OpLikePost callerId postId => LikePost callerId postId
  | OpUnlikePost callerId postId => UnlikePost callerId postId
  | OpAddComment callerId postId text freshId now =>
      AddComment callerId postId text freshId now
  | OpDeleteComment callerId postId commentId =>
      DeleteComment callerId postId commentId
  end.

(** At most one like per (post, user) pair. *)
Definition likes_unique (p : Post.t) : Prop :=
  NoDup (List.map Like.user (Post.likes p)).

#[global] Instance likes_unique_dec (p : Post.t) : Decision (likes_unique p).
Proof. unfold likes_unique. apply _. Defined.

(** [liked_by callerId p]: some like of [p] belongs to [callerId]. *)
Definition liked_by (callerId : string) (p : Post.t) : Prop :=
  ∃ like, In like (Post.likes p) ∧ Like.user like = callerId.

(** [findById] answers [null] or throws: the two ways a post id fails to
    resolve. *)
Definition unresolved (st : State) (postId : string) : Prop :=
  isValidObjectId postId = false ∨ posts st !! postId = None.

(** ** The listing route and the requests as one type *)

(** [{ date: -1 }]: newest first. *)
Definition newer_first (a b : string * Post.t) : Prop :=
  Post.date (snd b) ≤ Post.date (snd a).

#[global] Instance newer_first_dec (a b : string * Post.t) :
  Decision (newer_first a b).
Proof. unfold newer_first. apply _. Defined.

(** Modelled from the spec: [Post.find().sort({ date: -1 })] of the
    Persistence Store, every document with its id, newest first.  The order
    among posts of one date is the store's own; here it is the one the merge
    sort leaves. *)
Definition Post_find_sort : M (list (string * Post.t)) :=
  fun st => (Ok (merge_sort newer_first (map_to_list (posts st))), st).

(** The listing answers an array of posts, which no other route does. *)
Inductive ListOutcome :=
| SentPosts (code : Z) (found : list (string * Post.t))
| SentText (code : Z) (s : string).

(** [GET api/posts] *)
Definition ListPosts : State → ListOutcome * State :=
  fun st =>
    match Post_find_sort st with
    | (Ok found, st') => (SentPosts 200 found, st')
    | (Throw _, st') => (SentText 500 "Server Error", st')
    end.

(** The requests on one post. *)
Inductive Request :=
| ReqCreatePost (callerId text freshId : string) (now : Z)
| ReqGetPost (postId : string)
| ReqDeletePost (callerId postId : string)
| ReqOp (op : Op).

Definition handle (req : Request) : Handler :=
  match req with
  | ReqCreatePost callerId text freshId now =>
      CreatePost callerId text freshId now
  | ReqGetPost postId => GetPost postId
  | ReqDeletePost callerId postId => DeletePost callerId postId
  | ReqOp op => run op
  end.

(** The id in the route's path, or the id of the post being created. *)
Definition op_target (op : Op) : string :=
  match op with
  | OpLikePost _ postId => postId
  | OpUnlikePost _ postId => postId
  | OpAddComment _ postId _ _ _ => postId
  | OpDeleteComment _ postId _ => postId
  end.

Definition target (req : Request) : string :=
  match req with
  | ReqCreatePost _ _ freshId _ => freshId
  | ReqGetPost postId => postId
  | ReqDeletePost _ postId => postId
  | ReqOp op => op_target op
  end.

(** The part of a post that is written once, when it is created. *)
Definition same_header (p p' : Post.t) : Prop :=
  Post.text p' = Post.text p
  ∧ Post.name p' = Post.name p
  ∧ Post.avatar p' = Post.avatar p
  ∧ Post.user p' = Post.user p
  ∧ Post.date p' = Post.date p.

(** Every post of the store has at most one like per user. *)
Definition store_likes_unique (st : State) : Prop :=
  ∀ postId p, posts st !! postId = Some p → likes_unique p.

(** [commented_by callerId p]: some comment of [p] was written by
    [callerId]. *)
Definition commented_by (callerId : string) (p : Post.t) : Prop :=
  ∃ c, In c (Post.comments p) ∧ Comment.user c = callerId.

(** The caller of an operation. *)
Definition op_caller (op : Op) : string :=
  match op with
  | OpLikePost callerId _ => callerId
  | OpUnlikePost callerId _ => callerId
  | OpAddComment callerId _ _ _ _ => callerId
  | OpDeleteComment callerId _ _ => callerId
  end.

(** The likes and the comments of everybody but [callerId], in the order the
    post has them. *)
Definition others_likes (callerId : string) (p : Post.t) : list Like.t :=
  List.filter (λ like, negb (strict_eq (Like.user like) callerId))
    (Post.likes p).

Definition others_comments (callerId : string) (p : Post.t)
  : list Comment.t :=
  List.filter (λ comment, negb (strict_eq (Comment.user comment) callerId))
    (Post.comments p).

(** The four ways an operation of [callerId] rewrites a post: a like of the
    caller in front, one like of the caller taken out, a comment of the
    caller in front, one comment of the caller taken out. *)
Inductive edit (callerId : string) (p : Post.t) : Post.t → Prop :=
| edit_like :
    ¬ liked_by callerId p →
    edit callerId p (Post.with_likes p (Like.mk callerId :: Post.likes p))
| edit_unlike before like after :
    Post.likes p = before ++ like :: after →
    Like.user like = callerId →
    edit callerId p (Post.with_likes p (before ++ after))
| edit_add c :
    Comment.user c = callerId →
    edit callerId p (Post.with_comments p (c :: Post.comments p))
| edit_delete before removed after :
    Post.comments p = before ++ removed :: after →
    Comment.user removed = callerId →
    edit callerId p (Post.with_comments p (before ++ after)).

(** * Properties *)

(** ** Array methods *)

Lemma strict_eq_true (a b : string) : strict_eq a b = true ↔ a = b.
Proof. unfold strict_eq. apply bool_decide_eq_true. Qed.

Lemma strict_eq_false (a b : string) : strict_eq a b = false ↔ a ≠ b.
Proof. unfold strict_eq. apply bool_decide_eq_false. Qed.

Lemma strict_eq_refl (a : string) : strict_eq a a = true.
Proof. by apply strict_eq_true. Qed.

Section ArrayFacts.
Context {A : Type} (f : A → string) (x : string).

Let owned (a : A) : bool := strict_eq (f a) x.

(** A scan that starts counting at [k] answers [k] plus the length of the
    prefix it skipped. *)
Lemma indexOf_from_map_found (arr : list A) (k : Z) :
  (∃ a, In a arr ∧ f a = x) →
  ∃ before a after,
    arr = before ++ a :: after
    ∧ f a = x
    ∧ (∀ b, In b before → f b ≠ x)
    ∧ JsArray.indexOf_from (JsArray.map f arr) x k
      = k + Z.of_nat (List.length before).
Proof.
  revert k. induction arr as [|a0 arr IH]; intros k [a [Hin Ha]].
  - destruct Hin.
  - cbn [JsArray.map List.map JsArray.indexOf_from].
    destruct (strict_eq (f a0) x) eqn:E.
    + exists [], a0, arr. apply strict_eq_true in E.
      split; [reflexivity|]. split; [assumption|].
      split; [intros b []|simpl; lia].
    + apply strict_eq_false in E.
      destruct Hin as [->|Hin]; [congruence|].
      destruct (IH (k + 1)) as (before & a1 & after & -> & Hf & Hb & Hi);
        [by exists a|].
      exists (a0 :: before), a1, after.
      split; [reflexivity|]. split; [assumption|]. split.
      * intros b [<-|Hb']; auto.
      * unfold JsArray.map in Hi. rewrite Hi. simpl List.length. lia.
Qed.

Lemma indexOf_map_found (arr : list A) :
  (∃ a, In a arr ∧ f a = x) →
  ∃ before a after,
    arr = before ++ a :: after
    ∧ f a = x
    ∧ (∀ b, In b before → f b ≠ x)
    ∧ JsArray.indexOf (JsArray.map f arr) x = Z.of_nat (List.length before).
Proof.
  intros H. destruct (indexOf_from_map_found arr 0 H)
    as (before & a & after & ? & ? & ? & Hi).
  exists before, a, after. unfold JsArray.indexOf. rewrite Hi.
  split; [assumption|]. split; [assumption|]. split; [assumption|lia].
Qed.

Lemma indexOf_from_map_absent (arr : list A) (k : Z) :
  (∀ a, In a arr → f a ≠ x) →
  JsArray.indexOf_from (JsArray.map f arr) x k = -1.
Proof.
  revert k. induction arr as [|a0 arr IH]; intros k H; [done|].
  cbn [JsArray.map List.map JsArray.indexOf_from].
  destruct (strict_eq (f a0) x) eqn:E.
  - apply strict_eq_true in E. destruct (H a0); [by left|done].
  - apply IH. intros a Ha. apply H. by right.
Qed.

(** [arr.filter(owned).length] is zero exactly when nothing is owned. *)
Lemma filter_length_zero (arr : list A) :
  JsArray.length (JsArray.filter owned arr) = 0
  ↔ (∀ a, In a arr → f a ≠ x).
Proof.
  unfold JsArray.length, JsArray.filter, owned.
  induction arr as [|a0 arr IH]; simpl.
  - split; [intros _ a []|done].
  - destruct (strict_eq (f a0) x) eqn:E.
    + apply strict_eq_true in E. split.
      * simpl. lia.
      * intros H. destruct (H a0); auto.
    + apply strict_eq_false in E. rewrite IH. split.
      * intros H a [<-|Ha]; auto.
      * intros H a Ha. apply H. by right.
Qed.

Lemma filter_length_pos (arr : list A) :
  JsArray.length (JsArray.filter owned arr) > 0
  ↔ (∃ a, In a arr ∧ f a = x).
Proof.
  unfold JsArray.length, JsArray.filter, owned.
  induction arr as [|a0 arr IH]; simpl.
  - split; [lia|intros [a [[] _]]].
  - destruct (strict_eq (f a0) x) eqn:E.
    + apply strict_eq_true in E. split.
      * intros _. exists a0. auto.
      * intros _. simpl. lia.
    + apply strict_eq_false in E. rewrite IH. split.
      * intros [a [Ha Hf]]. exists a. auto.
      * intros [a [[<-|Ha] Hf]]; [done|]. exists a. auto.
Qed.

(** [find] answers an element of the array that passes the test. *)
Lemma find_owned (arr : list A) (a : A) :
  JsArray.find owned arr = Some a → In a arr ∧ f a = x.
Proof.
  unfold JsArray.find, owned. intros H. apply find_some in H as [Hin E].
  by apply strict_eq_true in E.
Qed.

End ArrayFacts.

(** [splice(i, 1)] at the index right after [before] removes the one element
    found there. *)
Lemma splice_one {A} (before : list A) (a : A) (after : list A) :
  JsArray.splice (before ++ a :: after) (Z.of_nat (List.length before)) 1
  = before ++ after.
Proof.
  unfold JsArray.splice, JsArray.length.
  rewrite length_app. simpl List.length.
  set (n := List.length before). set (m := List.length after).
  replace (Z.of_nat n <? 0) with false by (symmetry; apply Z.ltb_ge; lia).
  replace (Z.min (Z.of_nat n) (Z.of_nat (n + S m))) with (Z.of_nat n) by lia.
  replace (Z.min (Z.max 1 0) (Z.of_nat (n + S m) - Z.of_nat n)) with 1 by lia.
  replace (Z.to_nat (Z.of_nat n + 1)) with (S n) by lia.
  rewrite Nat2Z.id. subst n.
  rewrite take_app_length.
  replace (S (List.length before)) with (List.length before + 1)%nat by lia.
  rewrite drop_app_add. reflexivity.
Qed.

(** ** The handlers, case by case *)

Lemma with_likes_same (p : Post.t) : Post.with_likes p (Post.likes p) = p.
Proof. by destruct p. Qed.

Lemma with_comments_same (p : Post.t) :
  Post.with_comments p (Post.comments p) = p.
Proof. by destruct p. Qed.

Lemma set_posts_same (st : State) : set_posts st (posts st) = st.
Proof. by destruct st. Qed.

Lemma set_posts_twice (st : State) (m1 m2 : gmap string Post.t) :
  set_posts (set_posts st m1) m2 = set_posts st m2.
Proof. reflexivity. Qed.

Ltac step_handler :=
  unfold LikePost, UnlikePost, DeleteComment, DeletePost, GetPost,
    try_catch, bind, Post_findById, User_findById, Post_save, Post_deleteOne,
    deref, ret, throw.

Lemma LikePost_found st callerId postId p :
  isValidObjectId postId = true →
  posts st !! postId = Some p →
  LikePost callerId postId st =
    if JsArray.length
         (JsArray.filter (λ like, strict_eq (Like.user like) callerId)
            (Post.likes p)) >? 0
    then (Sent (status_json 400 (JsonMsg "Post already liked")), st)
    else
      (Sent (json (JsonLikes (Like.mk callerId :: Post.likes p))),
       set_posts st
         (<[postId := Post.with_likes p (Like.mk callerId :: Post.likes p)]>
            (posts st))).
Proof.
  intros Hv Hp. step_handler. rewrite Hv, Hp.
  by destruct (_ >? 0).
Qed.

Lemma UnlikePost_found st callerId postId p :
  isValidObjectId postId = true →
  posts st !! postId = Some p →
  UnlikePost callerId postId st =
    if JsArray.length
         (JsArray.filter (λ like, strict_eq (Like.user like) callerId)
            (Post.likes p)) =? 0
    then (Sent (status_json 400 (JsonMsg "Post has not yet been liked")), st)
    else
      let removeIndex :=
        JsArray.indexOf (JsArray.map Like.user (Post.likes p)) callerId in
      let likes' := JsArray.splice (Post.likes p) removeIndex 1 in
      (Sent (json (JsonLikes likes')),
       set_posts st (<[postId := Post.with_likes p likes']> (posts st))).
Proof.
  intros Hv Hp. step_handler. rewrite Hv, Hp.
  by destruct (_ =? 0).
Qed.

Lemma DeleteComment_found st callerId postId commentId p :
  isValidObjectId postId = true →
  posts st !! postId = Some p →
  DeleteComment callerId postId commentId st =
    match
      JsArray.find (λ comment, strict_eq (Comment.id comment) commentId)
        (Post.comments p)
    with
    | None => (Sent (status_json 404 (JsonMsg "Comment is not found")), st)
    | Some comment =>
        if negb (strict_eq (Comment.user comment) callerId) then
          (Sent (status_json 401 (JsonMsg "User is not authorized")), st)
        else
          let removeIndex :=
            JsArray.indexOf (JsArray.map Comment.user (Post.comments p))
              callerId in
          let comments' := JsArray.splice (Post.comments p) removeIndex 1 in
          (Sent (json (JsonComments comments')),
           set_posts st
             (<[postId := Post.with_comments p comments']> (posts st)))
    end.
Proof.
  intros Hv Hp. step_handler. rewrite Hv, Hp.
  destruct (JsArray.find _ _) as [c|]; [|done].
  by destruct (negb _).
Qed.

(** The four handlers that read [post.likes] or [post.comments] without a
    null check answer 500 when the post id does not resolve. *)
Lemma LikePost_unresolved st callerId postId :
  unresolved st postId → LikePost callerId postId st = (Sent server_error, st).
Proof.
  intros [Hv|Hp]; step_handler; destruct (isValidObjectId postId);
    try discriminate; try rewrite Hp; reflexivity.
Qed.

Lemma UnlikePost_unresolved st callerId postId :
  unresolved st postId →
  UnlikePost callerId postId st = (Sent server_error, st).
Proof.
  intros [Hv|Hp]; step_handler; destruct (isValidObjectId postId);
    try discriminate; try rewrite Hp; reflexivity.
Qed.

Lemma DeleteComment_unresolved st callerId postId commentId :
  unresolved st postId →
  DeleteComment callerId postId commentId st = (Sent server_error, st).
Proof.
  intros [Hv|Hp]; step_handler; destruct (isValidObjectId postId);
    try discriminate; try rewrite Hp; reflexivity.
Qed.

Lemma resolved_or_not st postId :
  unresolved st postId
  ∨ (isValidObjectId postId = true ∧ ∃ p, posts st !! postId = Some p).
Proof.
  unfold unresolved. destruct (isValidObjectId postId); [|by left; left].
  destruct (posts st !! postId) as [p|]; [right; eauto|by left; right].
Qed.

(** [AddComment] either leaves the store as it was or rewrites the post
    under [postId] with one more comment and the same likes. *)
Lemma AddComment_effect st callerId postId text freshId now :
  snd (AddComment callerId postId text freshId now st) = st
  ∨ ∃ p c,
      posts st !! postId = Some p
      ∧ AddComment callerId postId text freshId now st
        = (Sent (json (JsonComments (c :: Post.comments p))),
           set_posts st
             (<[postId := Post.with_comments p (c :: Post.comments p)]>
                (posts st))).
Proof.
  unfold AddComment.
  destruct (negb (isEmpty (validationResult text))); [by left|].
  unfold try_catch, bind, Post_findById, User_findById, Post_save, deref,
    ret, throw.
  destruct (isValidObjectId callerId); [|by left].
  destruct (isValidObjectId postId); [|by left].
  destruct (users st !! callerId) as [u|]; [|by left].
  destruct (posts st !! postId) as [p|] eqn:Hp; [|by left].
  right. eexists p, _. split; [reflexivity|]. reflexivity.
Qed.


(** ** Deleting a comment *)

Lemma AddComment_ok st callerId postId text freshId now u p :
  isValidObjectId callerId = true →
  isValidObjectId postId = true →
  users st !! callerId = Some u →
  posts st !! postId = Some p →
  text ≠ "" →
  let c :=
    Comment.mk freshId text (User.name u) (User.avatar u) callerId now in
  AddComment callerId postId text freshId now st
  = (Sent (json (JsonComments (c :: Post.comments p))),
     set_posts st
       (<[postId := Post.with_comments p (c :: Post.comments p)]> (posts st))).
Proof.
  intros Hc Hv Hu Hp Ht c. unfold AddComment, validationResult.
  replace (strict_eq text "") with false
    by (symmetry; by apply strict_eq_false).
  cbn [isEmpty negb].
  unfold try_catch, bind, Post_findById, User_findById, Post_save, deref, ret.
  by rewrite Hc, Hv, Hu, Hp.
Qed.

(** A comment just added sits in front of the caller's older ones, so
    deleting any of those takes the new comment away instead. *)
Lemma DeleteComment_after_AddComment
    st callerId postId text freshId now u p commentId target :
  isValidObjectId callerId = true →
  isValidObjectId postId = true →
  users st !! callerId = Some u →
  posts st !! postId = Some p →
  text ≠ "" →
  JsArray.find (λ comment, strict_eq (Comment.id comment) commentId)
    (Post.comments p) = Some target →
  Comment.user target = callerId →
  freshId ≠ commentId →
  DeleteComment callerId postId commentId
    (snd (AddComment callerId postId text freshId now st))
  = (Sent (json (JsonComments (Post.comments p))), st).
Proof.
  intros Hc Hv Hu Hp Ht Hfind Huser Hfresh.
  rewrite (AddComment_ok _ _ _ _ _ _ _ _ Hc Hv Hu Hp Ht). cbn [snd].
  erewrite DeleteComment_found; [|assumption|apply lookup_insert_eq].
  cbn [Post.comments Post.with_comments JsArray.find List.find Comment.id].
  replace (strict_eq freshId commentId) with false
    by (symmetry; by apply strict_eq_false).
  unfold JsArray.find in Hfind. rewrite Hfind.
  replace (strict_eq (Comment.user target) callerId) with true
    by (symmetry; by apply strict_eq_true).
  cbn [negb JsArray.map List.map Comment.user JsArray.indexOf
       JsArray.indexOf_from].
  rewrite strict_eq_refl. cbv zeta.
  change 0 with (Z.of_nat (List.length (@nil Comment.t))).
  match goal with
  | |- context [JsArray.splice (?c :: ?l) _ 1] =>
      change (c :: l) with ([] ++ c :: l)
  end.
  rewrite splice_one. cbn [app]. f_equal.
  cbn [posts set_posts]. rewrite insert_insert_eq, set_posts_twice.
  change (Post.with_comments (Post.with_comments p _) (Post.comments p))
    with (Post.with_comments p (Post.comments p)).
  rewrite with_comments_same, insert_id by assumption. apply set_posts_same.
Qed.

(** C1. When [DeleteComment] finds the comment with the requested id and the
    caller wrote it, the index it removes is the one of the first comment
    written by the caller, found by scanning the authors: the comments split
    as [before ++ removed :: after] with no comment of the caller in
    [before], and [before ++ after] is what is saved and answered.  Comments
    are kept most recent first, so [removed] is the caller's most recent
    comment; when it is not the requested one, the requested comment stays in
    the post.  So a caller who adds a comment and then deletes an older one
    of theirs gets the post back as it was before the addition, and on any
    post id that resolves there is a store where the requested comment
    survives its own deletion. *)
Theorem DeleteComment_removes_first_by_author :
  (∀ st callerId postId commentId p target,
     isValidObjectId postId = true →
     posts st !! postId = Some p →
     JsArray.find (λ comment, strict_eq (Comment.id comment) commentId)
       (Post.comments p) = Some target →
     Comment.user target = callerId →
     ∃ before removed after,
       Post.comments p = before ++ removed :: after
       ∧ (∀ c, In c before → Comment.user c ≠ callerId)
       ∧ Comment.user removed = callerId
       ∧ JsArray.indexOf (JsArray.map Comment.user (Post.comments p)) callerId
         = Z.of_nat (List.length before)
       ∧ DeleteComment callerId postId commentId st
         = (Sent (json (JsonComments (before ++ after))),
            set_posts st
              (<[postId := Post.with_comments p (before ++ after)]> (posts st)))
       ∧ (Comment.id removed ≠ commentId → In target after))
  ∧ (∀ st callerId postId text freshId now u p commentId target,
       isValidObjectId callerId = true →
       isValidObjectId postId = true →
       users st !! callerId = Some u →
       posts st !! postId = Some p →
       text ≠ "" →
       JsArray.find (λ comment, strict_eq (Comment.id comment) commentId)
         (Post.comments p) = Some target →
       Comment.user target = callerId →
       freshId ≠ commentId →
       DeleteComment callerId postId commentId
         (snd (AddComment callerId postId text freshId now st))
       = (Sent (json (JsonComments (Post.comments p))), st))
  ∧ (∀ postId,
       isValidObjectId postId = true →
       ∃ st callerId commentId p target p',
         posts st !! postId = Some p
         ∧ JsArray.find (λ comment, strict_eq (Comment.id comment) commentId)
             (Post.comments p) = Some target
         ∧ Comment.user target = callerId
         ∧ status_of (fst (DeleteComment callerId postId commentId st))
           = Some 200
         ∧ posts (snd (DeleteComment callerId postId commentId st)) !! postId
           = Some p'
         ∧ In target (Post.comments p')).
Proof.
  split.
  - intros st callerId postId commentId p target Hv Hp Hfind Huser.
    pose proof (find_owned Comment.id commentId _ _ Hfind) as [Hin Hid].
    destruct (indexOf_map_found Comment.user callerId (Post.comments p))
      as (before & removed & after & Hsplit & Hrem & Hbefore & Hidx);
      [by exists target|].
    exists before, removed, after.
    split; [assumption|]. split; [assumption|]. split; [assumption|].
    split; [assumption|]. split.
    + rewrite (DeleteComment_found _ _ _ _ _ Hv Hp), Hfind.
      replace (strict_eq (Comment.user target) callerId) with true
        by (symmetry; by apply strict_eq_true).
      cbn [negb]. cbv zeta. rewrite Hidx.
      rewrite Hsplit at 1 2. by rewrite splice_one.
    + intros Hne. rewrite Hsplit in Hin.
      apply in_app_or in Hin as [Hin|[->|Hin]]; [|congruence|assumption].
      by destruct (Hbefore _ Hin).
  - split; [intros; by eapply DeleteComment_after_AddComment|].
    intros postId Hv.
    exists (sample_store postId), "alice", "c1", sample_post, comment_old.
    eexists.
    assert (Hp : posts (sample_store postId) !! postId = Some sample_post)
      by apply lookup_singleton_eq.
    split; [assumption|]. split; [reflexivity|]. split; [reflexivity|].
    rewrite (DeleteComment_found _ _ _ _ _ Hv Hp).
    split; [reflexivity|]. split.
    + cbn -[sample_post]. apply lookup_insert_eq.
    + cbn. by left.
Qed.

(** C10. Once both guards of [DeleteComment] have passed, the scan of the
    authors finds the caller: [indexOf] answers an index inside the array,
    never [-1], and the [splice] takes exactly one comment away. *)
Theorem DeleteComment_scan_in_range st callerId postId commentId p target :
  isValidObjectId postId = true →
  posts st !! postId = Some p →
  JsArray.find (λ comment, strict_eq (Comment.id comment) commentId)
    (Post.comments p) = Some target →
  Comment.user target = callerId →
  let removeIndex :=
    JsArray.indexOf (JsArray.map Comment.user (Post.comments p)) callerId in
  let comments' := JsArray.splice (Post.comments p) removeIndex 1 in
  0 ≤ removeIndex < JsArray.length (Post.comments p)
  ∧ JsArray.length comments' = JsArray.length (Post.comments p) - 1
  ∧ DeleteComment callerId postId commentId st
    = (Sent (json (JsonComments comments')),
       set_posts st (<[postId := Post.with_comments p comments']> (posts st))).
Proof.
  intros Hv Hp Hfind Huser removeIndex comments'.
  pose proof (find_owned Comment.id commentId _ _ Hfind) as [Hin Hid].
  destruct (indexOf_map_found Comment.user callerId (Post.comments p))
    as (before & removed & after & Hsplit & Hrem & Hbefore & Hidx);
    [by exists target|].
  assert (Hlen : JsArray.length (Post.comments p)
                 = Z.of_nat (List.length before)
                   + 1 + Z.of_nat (List.length after)).
  { unfold JsArray.length. rewrite Hsplit, length_app. simpl. lia. }
  assert (Hc : comments' = before ++ after).
  { subst comments' removeIndex. rewrite Hidx.
    rewrite Hsplit at 1. apply splice_one. }
  split; [subst removeIndex; rewrite Hidx; lia|]. split.
  - rewrite Hc, Hlen. unfold JsArray.length. rewrite length_app. lia.
  - rewrite (DeleteComment_found _ _ _ _ _ Hv Hp), Hfind.
    replace (strict_eq (Comment.user target) callerId) with true
      by (symmetry; by apply strict_eq_true).
    reflexivity.
Qed.

(** ** Liking and unliking *)

Lemma not_liked_filter (callerId : string) (p : Post.t) :
  ¬ liked_by callerId p →
  JsArray.length
    (JsArray.filter (λ like, strict_eq (Like.user like) callerId)
       (Post.likes p)) = 0.
Proof.
  intros H. apply (filter_length_zero Like.user callerId).
  intros like Hin Hu. apply H. by exists like.
Qed.

Lemma liked_filter (callerId : string) (p : Post.t) :
  liked_by callerId p →
  JsArray.length
    (JsArray.filter (λ like, strict_eq (Like.user like) callerId)
       (Post.likes p)) > 0.
Proof. intros H. by apply (filter_length_pos Like.user callerId). Qed.

Lemma liked_by_dec (callerId : string) (p : Post.t) :
  liked_by callerId p ∨ ¬ liked_by callerId p.
Proof.
  destruct (Z.eq_dec
    (JsArray.length
       (JsArray.filter (λ like, strict_eq (Like.user like) callerId)
          (Post.likes p))) 0) as [E|E].
  - right. intros [like [Hin Hu]].
    by apply (filter_length_zero Like.user callerId) in Hin.
  - left. apply (filter_length_pos Like.user callerId).
    unfold JsArray.length in *. lia.
Qed.

Lemma LikePost_fresh st callerId postId p :
  isValidObjectId postId = true →
  posts st !! postId = Some p →
  ¬ liked_by callerId p →
  LikePost callerId postId st
  = (Sent (json (JsonLikes (Like.mk callerId :: Post.likes p))),
     set_posts st
       (<[postId := Post.with_likes p (Like.mk callerId :: Post.likes p)]>
          (posts st))).
Proof.
  intros Hv Hp Hn. rewrite (LikePost_found _ _ _ _ Hv Hp).
  by rewrite (not_liked_filter _ _ Hn).
Qed.

Lemma LikePost_again st callerId postId p :
  isValidObjectId postId = true →
  posts st !! postId = Some p →
  liked_by callerId p →
  LikePost callerId postId st
  = (Sent (status_json 400 (JsonMsg "Post already liked")), st).
Proof.
  intros Hv Hp Hl. rewrite (LikePost_found _ _ _ _ Hv Hp).
  apply liked_filter in Hl.
  replace (_ >? 0) with true; [done|]. symmetry. apply Z.gtb_lt. lia.
Qed.

Lemma UnlikePost_not_liked st callerId postId p :
  isValidObjectId postId = true →
  posts st !! postId = Some p →
  ¬ liked_by callerId p →
  UnlikePost callerId postId st
  = (Sent (status_json 400 (JsonMsg "Post has not yet been liked")), st).
Proof.
  intros Hv Hp Hn. rewrite (UnlikePost_found _ _ _ _ Hv Hp).
  by rewrite (not_liked_filter _ _ Hn).
Qed.

Lemma UnlikePost_liked st callerId postId p :
  isValidObjectId postId = true →
  posts st !! postId = Some p →
  liked_by callerId p →
  ∃ before like after,
    Post.likes p = before ++ like :: after
    ∧ (∀ l, In l before → Like.user l ≠ callerId)
    ∧ Like.user like = callerId
    ∧ UnlikePost callerId postId st
      = (Sent (json (JsonLikes (before ++ after))),
         set_posts st
           (<[postId := Post.with_likes p (before ++ after)]> (posts st))).
Proof.
  intros Hv Hp Hl.
  destruct (indexOf_map_found Like.user callerId (Post.likes p) Hl)
    as (before & like & after & Hsplit & Hu & Hbefore & Hidx).
  exists before, like, after.
  split; [assumption|]. split; [assumption|]. split; [assumption|].
  rewrite (UnlikePost_found _ _ _ _ Hv Hp).
  apply liked_filter in Hl.
  replace (_ =? 0) with false by (symmetry; apply Z.eqb_neq; lia).
  cbv zeta. rewrite Hidx. rewrite Hsplit at 1 2. by rewrite splice_one.
Qed.

Lemma GetPost_found st postId p :
  isValidObjectId postId = true →
  posts st !! postId = Some p →
  GetPost postId st = (Sent (json (JsonPost postId p)), st).
Proof. intros Hv Hp. step_handler. by rewrite Hv, Hp. Qed.

(** The sibling of [AddComment]'s validation branch, in [POST api/posts],
    reads [errors.array()] and answers the 400 with the field errors. *)
Lemma CreatePost_empty_text st callerId freshId now :
  CreatePost callerId "" freshId now st
  = (Sent (status_json 400 (JsonErrors [mkFieldError "text" "Text is required"])),
     st).
Proof. reflexivity. Qed.

(** What one operation does to the store: nothing, or it saves the post it
    loaded with likes that are still unique when they were. *)
Lemma run_effect (op : Op) (st : State) :
  snd (run op st) = st
  ∨ ∃ postId p p',
      posts st !! postId = Some p
      ∧ snd (run op st) = set_posts st (<[postId := p']> (posts st))
      ∧ (likes_unique p → likes_unique p').
Proof.
  destruct op as [callerId postId|callerId postId
                 |callerId postId text freshId now|callerId postId commentId];
    cbn [run].
  - destruct (resolved_or_not st postId) as [Hu|[Hv [p Hp]]];
      [left; by rewrite LikePost_unresolved|].
    destruct (liked_by_dec callerId p) as [Hl|Hn].
    + left. by rewrite (LikePost_again _ _ _ _ Hv Hp Hl).
    + right. rewrite (LikePost_fresh _ _ _ _ Hv Hp Hn).
      eexists postId, p, _. split; [assumption|]. split; [reflexivity|].
      unfold likes_unique. cbn. intros Hnd.
      apply NoDup_cons. split; [|assumption].
      intros Hin. apply list_elem_of_In, in_map_iff in Hin as (like & Hu & Hin).
      apply Hn. by exists like.
  - destruct (resolved_or_not st postId) as [Hu|[Hv [p Hp]]];
      [left; by rewrite UnlikePost_unresolved|].
    destruct (liked_by_dec callerId p) as [Hl|Hn].
    + right.
      destruct (UnlikePost_liked _ _ _ _ Hv Hp Hl)
        as (before & like & after & Hsplit & _ & _ & ->).
      eexists postId, p, _. split; [assumption|]. split; [reflexivity|].
      unfold likes_unique. cbn. rewrite Hsplit, !map_app. cbn.
      rewrite !NoDup_app, NoDup_cons.
      intros (Hb & Hdis & _ & Ha). split; [assumption|]. split; [|assumption].
      intros u Hu Hin. apply (Hdis u Hu). by right.
    + left. by rewrite (UnlikePost_not_liked _ _ _ _ Hv Hp Hn).
  - destruct (AddComment_effect st callerId postId text freshId now)
      as [E|(p & c & Hp & ->)]; [by left|].
    right. eexists postId, p, _. split; [assumption|]. split; [reflexivity|].
    done.
  - destruct (resolved_or_not st postId) as [Hu|[Hv [p Hp]]];
      [left; by rewrite DeleteComment_unresolved|].
    rewrite (DeleteComment_found _ _ _ _ _ Hv Hp).
    destruct (JsArray.find _ _) as [c|]; [|by left].
    destruct (negb _); [by left|].
    right. eexists postId, p, _. split; [assumption|]. split; [reflexivity|].
    done.
Qed.

(** ** The claims about validation and missing posts *)

(** C2. What [AddComment] does with an empty text: the validation result is
    not empty, and building the 400 answer evaluates [error.array()] on
    [console.error], which throws outside of the [try].  The handler sends
    no answer at all, so no [ValidationError] and no list of field errors
    reaches the caller; the store, and with it the post's comments, stays as
    it was. *)
Theorem AddComment_empty_text_throws st callerId postId freshId now :
  AddComment callerId postId "" freshId now st
  = (Rejected (TypeError "error.array is not a function"), st)
  ∧ error_of (fst (AddComment callerId postId "" freshId now st))
    ≠ Some ValidationError
  ∧ status_of (fst (AddComment callerId postId "" freshId now st)) = None.
Proof. split; [reflexivity|]. split; [discriminate|reflexivity]. Qed.

(** C3. What [LikePost] does when the post id does not resolve: [findById]
    throws or answers [null], reading [post.likes] throws, and the [catch]
    answers 500 for every error.  The caller gets [ServerError] where
    [GetPost] on the same id gets [NotFound]. *)
Theorem LikePost_unresolved_server_error st callerId postId :
  unresolved st postId →
  LikePost callerId postId st = (Sent (status_send 500 "Server Error"), st)
  ∧ error_of (fst (LikePost callerId postId st)) = Some ServerError
  ∧ error_of (fst (GetPost postId st)) = Some NotFound.
Proof.
  intros Hu. rewrite (LikePost_unresolved _ _ _ Hu).
  split; [reflexivity|]. split; [reflexivity|].
  destruct Hu as [Hv|Hp]; step_handler; destruct (isValidObjectId postId);
    try discriminate; try rewrite Hp; reflexivity.
Qed.

(** C9. [GetPost] on an id that is malformed or that no post has answers
    404, [NotFound]: the [null] check covers the missing post and the
    [catch] recognises the cast error of a malformed id.  It is never the
    500 of [ServerError], and the store is left alone. *)
Theorem GetPost_unresolved_not_found st postId :
  unresolved st postId →
  GetPost postId st = (Sent (status_json 404 (JsonMsg "Post not found")), st)
  ∧ error_of (fst (GetPost postId st)) = Some NotFound
  ∧ error_of (fst (GetPost postId st)) ≠ Some ServerError.
Proof.
  intros Hu.
  assert (E : GetPost postId st
              = (Sent (status_json 404 (JsonMsg "Post not found")), st)).
  { destruct Hu as [Hv|Hp]; step_handler; destruct (isValidObjectId postId);
      try discriminate; try rewrite Hp; reflexivity. }
  rewrite E. split; [reflexivity|]. split; [reflexivity|discriminate].
Qed.

(** C8. [DeletePost] by anyone but the owner of an existing post answers
    401, [Unauthorized], before [deleteOne] is reached: the store is the one
    it was, and [GetPost] afterwards still answers the post with its likes
    and comments. *)
Theorem DeletePost_not_owner st callerId postId p :
  isValidObjectId postId = true →
  posts st !! postId = Some p →
  Post.user p ≠ callerId →
  DeletePost callerId postId st
  = (Sent (status_json 401 (JsonMsg "User not authorize")), st)
  ∧ error_of (fst (DeletePost callerId postId st)) = Some Unauthorized
  ∧ snd (DeletePost callerId postId st) = st
  ∧ GetPost postId (snd (DeletePost callerId postId st))
    = (Sent (json (JsonPost postId p)), st).
Proof.
  intros Hv Hp Hne.
  assert (E : DeletePost callerId postId st
              = (Sent (status_json 401 (JsonMsg "User not authorize")), st)).
  { step_handler. rewrite Hv, Hp.
    by replace (strict_eq (Post.user p) callerId) with false
      by (symmetry; by apply strict_eq_false). }
  rewrite E. split; [reflexivity|]. split; [reflexivity|].
  split; [reflexivity|]. by apply GetPost_found.
Qed.

(** ** The claims about likes *)

(** C4. At most one like per (post, user) pair is an invariant of the four
    operations on a post's likes and comments: whatever [LikePost],
    [UnlikePost], [AddComment] or [DeleteComment] answers, a post whose likes
    were unique before is, in the store after, a post whose likes are
    unique. *)
Theorem likes_unique_preserved (op : Op) st postId p p' :
  posts st !! postId = Some p →
  likes_unique p →
  posts (snd (run op st)) !! postId = Some p' →
  likes_unique p'.
Proof.
  intros Hp Huniq Hp'.
  destruct (run_effect op st) as [E|(target & q & q' & Hq & E & Hkeep)];
    rewrite E in Hp'.
  - congruence.
  - cbn in Hp'. destruct (decide (target = postId)) as [->|Hne].
    + rewrite lookup_insert_eq in Hp'. injection Hp' as <-.
      rewrite Hp in Hq. injection Hq as <-. by apply Hkeep.
    + rewrite lookup_insert_ne in Hp' by assumption. congruence.
Qed.

(** C5. On an existing post that the caller has not liked, [LikePost]
    answers 200 with the caller's like put in front of the likes, which are
    so one longer, and saves them; the same call again answers 400,
    [AlreadyLiked], and leaves the store, likes included, as the first call
    left it. *)
Theorem LikePost_then_already_liked st callerId postId p :
  isValidObjectId postId = true →
  posts st !! postId = Some p →
  ¬ liked_by callerId p →
  let likes' := Like.mk callerId :: Post.likes p in
  let first := LikePost callerId postId st in
  let second := LikePost callerId postId (snd first) in
  fst first = Sent (json (JsonLikes likes'))
  ∧ posts (snd first) !! postId = Some (Post.with_likes p likes')
  ∧ List.length likes' = S (List.length (Post.likes p))
  ∧ fst second = Sent (status_json 400 (JsonMsg "Post already liked"))
  ∧ error_of (fst second) = Some AlreadyLiked
  ∧ snd second = snd first.
Proof.
  intros Hv Hp Hn likes' first second.
  assert (E1 : first
    = (Sent (json (JsonLikes likes')),
       set_posts st (<[postId := Post.with_likes p likes']> (posts st))))
    by (by apply LikePost_fresh).
  assert (Hp1 : posts (snd first) !! postId = Some (Post.with_likes p likes'))
    by (rewrite E1; apply lookup_insert_eq).
  assert (E2 : second
    = (Sent (status_json 400 (JsonMsg "Post already liked")), snd first)).
  { apply (LikePost_again _ _ _ _ Hv Hp1).
    exists (Like.mk callerId). split; [by left|reflexivity]. }
  rewrite E2. rewrite E1 in *.
  split; [reflexivity|]. split; [assumption|]. split; [reflexivity|].
  split; [reflexivity|]. split; reflexivity.
Qed.

(** C6. On an existing post that the caller has not liked, [LikePost]
    followed by [UnlikePost] answers the likes the post had at the start and
    saves them: the store is back to the one before the two calls. *)
Theorem LikePost_UnlikePost_roundtrip st callerId postId p :
  isValidObjectId postId = true →
  posts st !! postId = Some p →
  ¬ liked_by callerId p →
  let liked := snd (LikePost callerId postId st) in
  UnlikePost callerId postId liked = (Sent (json (JsonLikes (Post.likes p))), st).
Proof.
  intros Hv Hp Hn liked. subst liked.
  rewrite (LikePost_fresh _ _ _ _ Hv Hp Hn). cbn [snd].
  set (p1 := Post.with_likes p (Like.mk callerId :: Post.likes p)).
  set (st1 := set_posts st (<[postId := p1]> (posts st))).
  assert (Hp1 : posts st1 !! postId = Some p1) by apply lookup_insert_eq.
  assert (Hl : liked_by callerId p1)
    by (exists (Like.mk callerId); split; [by left|reflexivity]).
  destruct (UnlikePost_liked _ _ _ _ Hv Hp1 Hl)
    as (before & like & after & Hsplit & Hbefore & _ & ->).
  destruct before as [|b before]; cbn in Hsplit.
  - injection Hsplit as _ <-. cbn [app]. f_equal. subst st1 p1. cbn.
    rewrite insert_insert_eq, set_posts_twice.
    change (Post.with_likes (Post.with_likes p _) (Post.likes p))
      with (Post.with_likes p (Post.likes p)).
    rewrite with_likes_same, insert_id by assumption. apply set_posts_same.
  - injection Hsplit as <- _. destruct (Hbefore (Like.mk callerId)); [by left|done].
Qed.

(** C7. On an existing post, [UnlikePost] answers [NotLiked] exactly when no
    like of the post is the caller's, and then changes nothing.  Otherwise
    the likes split as [before ++ like :: after] around the first like of
    the caller, the one a scan from the front meets, and what is saved and
    answered is [before ++ after]: every other like, in the order it had. *)
Theorem UnlikePost_removes_first_like st callerId postId p :
  isValidObjectId postId = true →
  posts st !! postId = Some p →
  (error_of (fst (UnlikePost callerId postId st)) = Some NotLiked
   ↔ ¬ liked_by callerId p)
  ∧ (¬ liked_by callerId p →
     UnlikePost callerId postId st
     = (Sent (status_json 400 (JsonMsg "Post has not yet been liked")), st))
  ∧ (liked_by callerId p →
     ∃ before like after,
       Post.likes p = before ++ like :: after
       ∧ (∀ l, In l before → Like.user l ≠ callerId)
       ∧ Like.user like = callerId
       ∧ UnlikePost callerId postId st
         = (Sent (json (JsonLikes (before ++ after))),
            set_posts st
              (<[postId := Post.with_likes p (before ++ after)]> (posts st)))).
Proof.
  intros Hv Hp. split; [|split].
  - split.
    + intros Herr Hl.
      destruct (UnlikePost_liked _ _ _ _ Hv Hp Hl) as (? & ? & ? & _ & _ & _ & E).
      rewrite E in Herr. discriminate.
    + intros Hn. by rewrite (UnlikePost_not_liked _ _ _ _ Hv Hp Hn).
  - by apply UnlikePost_not_liked.
  - by apply UnlikePost_liked.
Qed.

(** * Further properties of the routes *)

(** ** Creating and deleting posts *)

Lemma CreatePost_ok st callerId text freshId now u :
  text ≠ "" →
  isValidObjectId callerId = true →
  users st !! callerId = Some u →
  let newPost :=
    Post.mk text (User.name u) (User.avatar u) callerId [] [] now in
  CreatePost callerId text freshId now st
  = (Sent (json (JsonPost freshId newPost)),
     set_posts st (<[freshId := newPost]> (posts st))).
Proof.
  intros Ht Hc Hu newPost. unfold CreatePost, validationResult.
  replace (strict_eq text "") with false
    by (symmetry; by apply strict_eq_false).
  cbn [isEmpty negb].
  unfold try_catch, bind, User_findById, Post_save, deref, ret.
  by rewrite Hc, Hu.
Qed.

(** X1. A post that was created can be fetched: [CreatePost] with a text and a
    known caller answers the new post, with the caller's name and avatar and
    no likes or comments, and [GetPost] on its id answers the same post;
    every other post of the store is as before. *)
Theorem CreatePost_then_GetPost st callerId text freshId now u :
  text ≠ "" →
  isValidObjectId callerId = true →
  users st !! callerId = Some u →
  isValidObjectId freshId = true →
  let newPost :=
    Post.mk text (User.name u) (User.avatar u) callerId [] [] now in
  let created := CreatePost callerId text freshId now st in
  fst created = Sent (json (JsonPost freshId newPost))
  ∧ GetPost freshId (snd created)
    = (Sent (json (JsonPost freshId newPost)), snd created)
  ∧ (∀ other, other ≠ freshId →
       posts (snd created) !! other = posts st !! other).
Proof.
  intros Ht Hc Hu Hf newPost created. subst created.
  rewrite (CreatePost_ok _ _ _ _ _ _ Ht Hc Hu). cbn [fst snd].
  split; [reflexivity|]. split.
  - apply GetPost_found; [assumption|]. apply lookup_insert_eq.
  - intros other Hne. cbn. by rewrite lookup_insert_ne.
Qed.

(** X2. [CreatePost] persists nothing when it fails: an empty text is answered
    with 400 and the field error before the store is touched, and a caller
    the user directory cannot resolve (a malformed id, or no such user) with
    500. *)
Theorem CreatePost_rejected st callerId text freshId now :
  (text = "" →
   CreatePost callerId text freshId now st
   = (Sent (status_json 400
              (JsonErrors [mkFieldError "text" "Text is required"])), st))
  ∧ (text ≠ "" →
     isValidObjectId callerId = false ∨ users st !! callerId = None →
     CreatePost callerId text freshId now st
     = (Sent (status_send 500 "Server Error"), st)).
Proof.
  split.
  - intros ->. reflexivity.
  - intros Ht Hu. unfold CreatePost, validationResult.
    replace (strict_eq text "") with false
      by (symmetry; by apply strict_eq_false).
    cbn [isEmpty negb].
    unfold try_catch, bind, User_findById, Post_save, deref, ret, throw.
    destruct Hu as [Hv|Hu]; destruct (isValidObjectId callerId);
      try discriminate; try rewrite Hu; reflexivity.
Qed.

Lemma DeletePost_unresolved st callerId postId :
  unresolved st postId →
  DeletePost callerId postId st
  = (Sent (status_json 404 (JsonMsg "Post not found")), st).
Proof.
  intros [Hv|Hp]; step_handler; destruct (isValidObjectId postId);
    try discriminate; try rewrite Hp; reflexivity.
Qed.

(** X3. [DeletePost] by the owner answers 200 and removes the post and nothing
    else: afterwards [GetPost] and a second [DeletePost] on the id answer
    404, and every other post is as before. *)
Theorem DeletePost_owner st callerId postId p :
  isValidObjectId postId = true →
  posts st !! postId = Some p →
  Post.user p = callerId →
  let deleted := DeletePost callerId postId st in
  deleted
  = (Sent (json (JsonMsg "Post removed")),
     set_posts st (delete postId (posts st)))
  ∧ GetPost postId (snd deleted)
    = (Sent (status_json 404 (JsonMsg "Post not found")), snd deleted)
  ∧ DeletePost callerId postId (snd deleted)
    = (Sent (status_json 404 (JsonMsg "Post not found")), snd deleted)
  ∧ (∀ other, other ≠ postId →
       posts (snd deleted) !! other = posts st !! other).
Proof.
  intros Hv Hp Ho deleted.
  assert (E : deleted
    = (Sent (json (JsonMsg "Post removed")),
       set_posts st (delete postId (posts st)))).
  { subst deleted. step_handler. rewrite Hv, Hp.
    by replace (strict_eq (Post.user p) callerId) with true
      by (symmetry; by apply strict_eq_true). }
  rewrite E. cbn [snd].
  assert (Hgone : unresolved (set_posts st (delete postId (posts st))) postId)
    by (right; apply lookup_delete_eq).
  split; [reflexivity|]. split; [|split].
  - step_handler. rewrite Hv. cbn. by rewrite lookup_delete_eq.
  - by apply DeletePost_unresolved.
  - intros other Hne. cbn. by rewrite lookup_delete_ne.
Qed.

(** X4. [DeletePost] on an id that is malformed or that no post has answers 404,
    as [GetPost] does, whoever the caller is, and leaves the store alone. *)
Theorem DeletePost_unresolved_not_found st callerId postId :
  unresolved st postId →
  DeletePost callerId postId st
  = (Sent (status_json 404 (JsonMsg "Post not found")), st)
  ∧ error_of (fst (DeletePost callerId postId st)) = Some NotFound.
Proof.
  intros Hu. rewrite (DeletePost_unresolved _ _ _ Hu). by split.
Qed.

Lemma AddComment_unresolved st callerId postId text freshId now :
  unresolved st postId →
  text ≠ "" →
  AddComment callerId postId text freshId now st = (Sent server_error, st).
Proof.
  intros Hu Ht. unfold AddComment, validationResult.
  replace (strict_eq text "") with false
    by (symmetry; by apply strict_eq_false).
  cbn [isEmpty negb].
  unfold try_catch, bind, Post_findById, User_findById, Post_save, deref,
    ret, throw.
  destruct (isValidObjectId callerId); [|reflexivity].
  destruct Hu as [Hv|Hp]; destruct (isValidObjectId postId);
    try discriminate; try rewrite Hp; try reflexivity;
    by destruct (users st !! callerId).
Qed.

(** X5. The three other handlers that read the loaded post without a null
    check, [UnlikePost], [AddComment] (with a text) and [DeleteComment],
    answer 500 on an id that is malformed or that no post has, and leave the
    store alone. *)
Theorem unresolved_post_server_error
    st callerId postId text freshId now commentId :
  unresolved st postId →
  text ≠ "" →
  UnlikePost callerId postId st
  = (Sent (status_send 500 "Server Error"), st)
  ∧ AddComment callerId postId text freshId now st
    = (Sent (status_send 500 "Server Error"), st)
  ∧ DeleteComment callerId postId commentId st
    = (Sent (status_send 500 "Server Error"), st).
Proof.
  intros Hu Ht. split; [|split].
  - by apply UnlikePost_unresolved.
  - by apply AddComment_unresolved.
  - by apply DeleteComment_unresolved.
Qed.

(** ** Adding and deleting comments *)

(** X6. [AddComment] with a text, a known caller and an existing post puts one
    comment in front of the others, carrying the text, the caller's id and
    the caller's name and avatar; the likes and the post's own fields are
    not touched, and the answer is the new list of comments. *)
Theorem AddComment_prepends st callerId postId text freshId now u p :
  isValidObjectId callerId = true →
  isValidObjectId postId = true →
  users st !! callerId = Some u →
  posts st !! postId = Some p →
  text ≠ "" →
  let c :=
    Comment.mk freshId text (User.name u) (User.avatar u) callerId now in
  let added := AddComment callerId postId text freshId now st in
  ∃ p',
    posts (snd added) !! postId = Some p'
    ∧ fst added = Sent (json (JsonComments (Post.comments p')))
    ∧ Post.comments p' = c :: Post.comments p
    ∧ JsArray.length (Post.comments p') = JsArray.length (Post.comments p) + 1
    ∧ Post.likes p' = Post.likes p
    ∧ same_header p p'.
Proof.
  intros Hc Hv Hu Hp Ht c added. subst added.
  rewrite (AddComment_ok _ _ _ _ _ _ _ _ Hc Hv Hu Hp Ht). cbn [fst snd].
  eexists. split; [apply lookup_insert_eq|].
  split; [reflexivity|]. split; [reflexivity|]. split.
  - unfold JsArray.length. cbn [Post.comments Post.with_comments List.length].
    lia.
  - split; [reflexivity|]. by repeat split.
Qed.

(** X7. Adding a comment and deleting it by the id it was given brings the store
    back: the new comment is the first one with that id and the first one of
    its author, so it is the one [DeleteComment] finds and the one it
    removes. *)
Theorem AddComment_DeleteComment_roundtrip
    st callerId postId text freshId now u p :
  isValidObjectId callerId = true →
  isValidObjectId postId = true →
  users st !! callerId = Some u →
  posts st !! postId = Some p →
  text ≠ "" →
  DeleteComment callerId postId freshId
    (snd (AddComment callerId postId text freshId now st))
  = (Sent (json (JsonComments (Post.comments p))), st).
Proof.
  intros Hc Hv Hu Hp Ht.
  rewrite (AddComment_ok _ _ _ _ _ _ _ _ Hc Hv Hu Hp Ht). cbn [snd].
  erewrite DeleteComment_found; [|assumption|apply lookup_insert_eq].
  cbn [Post.comments Post.with_comments JsArray.find List.find Comment.id].
  rewrite strict_eq_refl. cbn [Comment.user]. rewrite strict_eq_refl.
  cbn [negb JsArray.map List.map Comment.user JsArray.indexOf
       JsArray.indexOf_from].
  rewrite strict_eq_refl. cbv zeta.
  change 0 with (Z.of_nat (List.length (@nil Comment.t))).
  match goal with
  | |- context [JsArray.splice (?c :: ?l) _ 1] =>
      change (c :: l) with ([] ++ c :: l)
  end.
  rewrite splice_one. cbn [app]. f_equal.
  cbn [posts set_posts]. rewrite insert_insert_eq, set_posts_twice.
  change (Post.with_comments (Post.with_comments p _) (Post.comments p))
    with (Post.with_comments p (Post.comments p)).
  rewrite with_comments_same, insert_id by assumption. apply set_posts_same.
Qed.

Lemma find_by_id_none (commentId : string) (comments : list Comment.t) :
  (∀ c, In c comments → Comment.id c ≠ commentId) →
  JsArray.find (λ comment, strict_eq (Comment.id comment) commentId) comments
  = None.
Proof.
  intros H. unfold JsArray.find.
  destruct (List.find _ comments) as [c|] eqn:E; [|reflexivity].
  apply find_some in E as [Hin Hid]. apply strict_eq_true in Hid.
  by destruct (H c Hin).
Qed.

Lemma find_by_id_first (commentId : string) before target after :
  (∀ c, In c before → Comment.id c ≠ commentId) →
  Comment.id target = commentId →
  JsArray.find (λ comment, strict_eq (Comment.id comment) commentId)
    (before ++ target :: after)
  = Some target.
Proof.
  intros Hb Ht. unfold JsArray.find.
  induction before as [|b before IH]; cbn [app List.find].
  - by replace (strict_eq (Comment.id target) commentId) with true
      by (symmetry; by apply strict_eq_true).
  - replace (strict_eq (Comment.id b) commentId) with false
      by (symmetry; apply strict_eq_false, Hb; by left).
    apply IH. intros c Hc. apply Hb. by right.
Qed.

(** X9. The two refusals of [DeleteComment] on an existing post: 404 when no
    comment has the requested id, 401 when the first comment with that id
    was written by someone else.  Neither changes the store. *)
Theorem DeleteComment_rejected st callerId postId commentId p :
  isValidObjectId postId = true →
  posts st !! postId = Some p →
  ((∀ c, In c (Post.comments p) → Comment.id c ≠ commentId) →
   DeleteComment callerId postId commentId st
   = (Sent (status_json 404 (JsonMsg "Comment is not found")), st))
  ∧ (∀ before target after,
       Post.comments p = before ++ target :: after →
       (∀ c, In c before → Comment.id c ≠ commentId) →
       Comment.id target = commentId →
       Comment.user target ≠ callerId →
       DeleteComment callerId postId commentId st
       = (Sent (status_json 401 (JsonMsg "User is not authorized")), st)).
Proof.
  intros Hv Hp. rewrite (DeleteComment_found _ _ _ _ _ Hv Hp). split.
  - intros Hnone. by rewrite find_by_id_none.
  - intros before target after Hsplit Hb Ht Hu.
    rewrite Hsplit, (find_by_id_first _ _ _ _ Hb Ht).
    by replace (strict_eq (Comment.user target) callerId) with false
      by (symmetry; by apply strict_eq_false).
Qed.

Lemma indexOf_from_map_first {A} (f : A → string) (x : string)
    (before : list A) (a : A) (after : list A) (k : Z) :
  (∀ b, In b before → f b ≠ x) →
  f a = x →
  JsArray.indexOf_from (JsArray.map f (before ++ a :: after)) x k
  = k + Z.of_nat (List.length before).
Proof.
  intros Hb Ha. revert k.
  induction before as [|b before IH]; intros k;
    cbn [app JsArray.map List.map JsArray.indexOf_from List.length].
  - replace (strict_eq (f a) x) with true
      by (symmetry; by apply strict_eq_true).
    cbn. lia.
  - replace (strict_eq (f b) x) with false
      by (symmetry; apply strict_eq_false, Hb; by left).
    unfold JsArray.map in IH. rewrite IH; [lia|].
    intros c Hc. apply Hb. by right.
Qed.

(** X10. [DeleteComment] removes the requested comment itself when the caller
    wrote it and no earlier comment in the array is the caller's (or has the
    same id): deleting one's most recent comment does what was asked. *)
Theorem DeleteComment_removes_target_when_first
    st callerId postId commentId p before target after :
  isValidObjectId postId = true →
  posts st !! postId = Some p →
  Post.comments p = before ++ target :: after →
  (∀ c, In c before →
     Comment.id c ≠ commentId ∧ Comment.user c ≠ callerId) →
  Comment.id target = commentId →
  Comment.user target = callerId →
  DeleteComment callerId postId commentId st
  = (Sent (json (JsonComments (before ++ after))),
     set_posts st
       (<[postId := Post.with_comments p (before ++ after)]> (posts st))).
Proof.
  intros Hv Hp Hsplit Hb Ht Hu.
  rewrite (DeleteComment_found _ _ _ _ _ Hv Hp), Hsplit.
  rewrite find_by_id_first; [|intros c Hc; by apply Hb|assumption].
  replace (strict_eq (Comment.user target) callerId) with true
    by (symmetry; by apply strict_eq_true).
  cbn [negb]. cbv zeta. unfold JsArray.indexOf.
  rewrite indexOf_from_map_first; [|intros c Hc; by apply Hb|assumption].
  rewrite Z.add_0_l. by rewrite splice_one.
Qed.

(** ** What a request can do to the store *)

(** An operation on a post either leaves the store as it was, or answers 200
    and saves, under the id it was given, one [edit] of the post it found
    there. *)
Lemma run_writes (op : Op) (st : State) :
  snd (run op st) = st
  ∨ ∃ p p',
      posts st !! op_target op = Some p
      ∧ status_of (fst (run op st)) = Some 200
      ∧ snd (run op st) = set_posts st (<[op_target op := p']> (posts st))
      ∧ edit (op_caller op) p p'.
Proof.
  destruct op as [callerId postId|callerId postId
                 |callerId postId text freshId now|callerId postId commentId];
    cbn [run op_target op_caller].
  - destruct (resolved_or_not st postId) as [Hu|[Hv [p Hp]]];
      [left; by rewrite LikePost_unresolved|].
    destruct (liked_by_dec callerId p) as [Hl|Hn].
    + left. by rewrite (LikePost_again _ _ _ _ Hv Hp Hl).
    + right. rewrite (LikePost_fresh _ _ _ _ Hv Hp Hn).
      eexists p, _. split; [assumption|]. split; [reflexivity|].
      split; [reflexivity|]. by constructor.
  - destruct (resolved_or_not st postId) as [Hu|[Hv [p Hp]]];
      [left; by rewrite UnlikePost_unresolved|].
    destruct (liked_by_dec callerId p) as [Hl|Hn].
    + right.
      destruct (UnlikePost_liked _ _ _ _ Hv Hp Hl)
        as (before & like & after & Hsplit & _ & Hlike & ->).
      eexists p, _. split; [assumption|]. split; [reflexivity|].
      split; [reflexivity|]. by econstructor.
    + left. by rewrite (UnlikePost_not_liked _ _ _ _ Hv Hp Hn).
  - unfold AddComment.
    destruct (negb (isEmpty (validationResult text))); [by left|].
    unfold try_catch, bind, Post_findById, User_findById, Post_save, deref,
      ret, throw.
    destruct (isValidObjectId callerId); [|by left].
    destruct (isValidObjectId postId); [|by left].
    destruct (users st !! callerId) as [u|]; [|by left].
    destruct (posts st !! postId) as [p|] eqn:Hp; [|by left].
    right. eexists p, _. split; [reflexivity|]. split; [reflexivity|].
    split; [reflexivity|]. by constructor.
  - destruct (resolved_or_not st postId) as [Hu|[Hv [p Hp]]];
      [left; by rewrite DeleteComment_unresolved|].
    rewrite (DeleteComment_found _ _ _ _ _ Hv Hp).
    destruct (JsArray.find _ _) as [target|] eqn:Hfind; [|by left].
    destruct (strict_eq (Comment.user target) callerId) eqn:Hu;
      cbn [negb]; [|by left].
    apply strict_eq_true in Hu.
    pose proof (find_owned Comment.id commentId _ _ Hfind) as [Hin _].
    destruct (indexOf_map_found Comment.user callerId (Post.comments p))
      as (before & removed & after & Hsplit & Hrem & _ & Hidx);
      [by exists target|].
    cbv zeta. rewrite Hidx.
    replace (JsArray.splice (Post.comments p) (Z.of_nat (List.length before)) 1)
      with (before ++ after)
      by (rewrite Hsplit at 1; symmetry; apply splice_one).
    right. eexists p, _. split; [assumption|]. split; [reflexivity|].
    split; [reflexivity|]. by econstructor.
Qed.

Lemma edit_same_header callerId p p' : edit callerId p p' → same_header p p'.
Proof. intros []; by repeat split. Qed.

Lemma edit_likes_unique callerId p p' :
  edit callerId p p' → likes_unique p → likes_unique p'.
Proof.
  unfold likes_unique.
  intros [Hn|before like after Hsplit _|c _|before removed after _ _];
    cbn; try done.
  - intros Hnd. apply NoDup_cons. split; [|assumption].
    intros Hin. apply list_elem_of_In, in_map_iff in Hin as (like & Hu & Hin).
    apply Hn. by exists like.
  - rewrite Hsplit, !map_app. cbn. rewrite !NoDup_app, NoDup_cons.
    intros (Hb & Hdis & _ & Ha). split; [assumption|]. split; [|assumption].
    intros u Hu Hin. apply (Hdis u Hu). by right.
Qed.

Lemma edit_others callerId p p' :
  edit callerId p p' →
  others_likes callerId p' = others_likes callerId p
  ∧ others_comments callerId p' = others_comments callerId p.
Proof.
  unfold others_likes, others_comments.
  intros [Hn|before like after Hsplit Hu|c Hu|before removed after Hsplit Hu];
    cbn [Post.likes Post.comments Post.with_likes Post.with_comments];
    (split; [|try reflexivity]); try reflexivity.
  - cbn [List.filter Like.user]. by rewrite strict_eq_refl.
  - rewrite Hsplit, !List.filter_app. cbn [List.filter].
    by replace (strict_eq (Like.user like) callerId) with true
      by (symmetry; by apply strict_eq_true).
  - cbn [List.filter].
    by replace (strict_eq (Comment.user c) callerId) with true
      by (symmetry; by apply strict_eq_true).
  - rewrite Hsplit, !List.filter_app. cbn [List.filter].
    by replace (strict_eq (Comment.user removed) callerId) with true
      by (symmetry; by apply strict_eq_true).
Qed.

(** X11. The four operations on a post never create a post, never delete one, and
    never change a post's text, author name, avatar, owner or date. *)
Theorem run_keeps_posts (op : Op) st postId :
  (posts st !! postId = None → posts (snd (run op st)) !! postId = None)
  ∧ (∀ p, posts st !! postId = Some p →
       ∃ p', posts (snd (run op st)) !! postId = Some p' ∧ same_header p p').
Proof.
  destruct (run_writes op st) as [E|(q & q' & Hq & _ & E & Hedit)];
    rewrite E.
  - split; [done|]. intros p Hp. exists p. split; [assumption|].
    by repeat split.
  - cbn [posts set_posts].
    destruct (decide (op_target op = postId)) as [<-|Hne].
    + rewrite lookup_insert_eq. split; [congruence|].
      intros p Hp. exists q'. split; [reflexivity|].
      rewrite Hq in Hp. injection Hp as <-. by eapply edit_same_header.
    + rewrite lookup_insert_ne by assumption. split; [done|].
      intros p Hp. exists p. split; [assumption|]. by repeat split.
Qed.

(** X12. An operation of one caller leaves everybody else's likes and comments
    on every post as they were, in number and in order: whatever is added or
    removed is the caller's own. *)
Theorem run_spares_others (op : Op) st postId p p' :
  posts st !! postId = Some p →
  posts (snd (run op st)) !! postId = Some p' →
  others_likes (op_caller op) p' = others_likes (op_caller op) p
  ∧ others_comments (op_caller op) p' = others_comments (op_caller op) p.
Proof.
  intros Hp Hp'.
  destruct (run_writes op st) as [E|(q & q' & Hq & _ & E & Hedit)];
    rewrite E in Hp'.
  - rewrite Hp in Hp'. by injection Hp' as <-.
  - cbn [posts set_posts] in Hp'.
    destruct (decide (op_target op = postId)) as [<-|Hne].
    + rewrite lookup_insert_eq in Hp'. injection Hp' as <-.
      rewrite Hq in Hp. injection Hp as <-. by apply edit_others.
    + rewrite lookup_insert_ne in Hp' by assumption.
      rewrite Hp in Hp'. by injection Hp' as <-.
Qed.

(** A request either leaves the store as it was, or answers 200 and replaces
    the posts by a map that differs at the request's target only and keeps
    the likes there unique. *)
Lemma handle_writes (req : Request) (st : State) :
  snd (handle req st) = st
  ∨ (status_of (fst (handle req st)) = Some 200
     ∧ ∃ m,
         snd (handle req st) = set_posts st m
         ∧ (∀ other, other ≠ target req → m !! other = posts st !! other)
         ∧ (store_likes_unique st →
            ∀ p, m !! target req = Some p → likes_unique p)).
Proof.
  destruct req as [callerId text freshId now|postId|callerId postId|op];
    cbn [handle target].
  - unfold CreatePost.
    destruct (negb (isEmpty (validationResult text))); [by left|].
    unfold try_catch, bind, User_findById, Post_save, deref, ret, throw.
    destruct (isValidObjectId callerId); [|by left].
    destruct (users st !! callerId) as [u|]; [|by left].
    right. split; [reflexivity|]. eexists. split; [reflexivity|]. split.
    + intros other Hne. by rewrite lookup_insert_ne.
    + intros _ p Hp. rewrite lookup_insert_eq in Hp. injection Hp as <-.
      unfold likes_unique. cbn. constructor.
  - left. step_handler. destruct (isValidObjectId postId); [|reflexivity].
    by destruct (posts st !! postId).
  - destruct (resolved_or_not st postId) as [Hu|[Hv [p Hp]]];
      [left; by rewrite DeletePost_unresolved|].
    step_handler. rewrite Hv, Hp.
    destruct (strict_eq (Post.user p) callerId); cbn [negb]; [|by left].
    right. split; [reflexivity|]. eexists. split; [reflexivity|]. split.
    + intros other Hne. by rewrite lookup_delete_ne.
    + intros _ q Hq. by rewrite lookup_delete_eq in Hq.
  - destruct (run_writes op st) as [E|(p & p' & Hp & Hok & E & Hedit)];
      [by left|].
    right. split; [assumption|]. eexists. split; [exact E|]. split.
    + intros other Hne. by rewrite lookup_insert_ne.
    + intros Hinv q Hq. rewrite lookup_insert_eq in Hq. injection Hq as <-.
      eapply edit_likes_unique; [eassumption|]. by eapply Hinv.
Qed.

(** X13. No partial commit: a request that is not answered with 200, whether it
    is refused, fails or throws, leaves the store exactly as it was. *)
Theorem handle_failure_unchanged (req : Request) st :
  status_of (fst (handle req st)) ≠ Some 200 →
  snd (handle req st) = st.
Proof.
  intros Hne. destruct (handle_writes req st) as [E|[Hok _]]; [assumption|].
  by destruct Hne.
Qed.

(** X14. A request writes to one post at most, the one its path names (or the
    one it creates): every other post is as before, and so is the user
    directory. *)
Theorem handle_frame (req : Request) st :
  users (snd (handle req st)) = users st
  ∧ (∀ other, other ≠ target req →
       posts (snd (handle req st)) !! other = posts st !! other).
Proof.
  destruct (handle_writes req st) as [E|[_ (m & E & Hframe & _)]];
    rewrite E; [done|].
  split; [reflexivity|]. intros other Hne. by apply Hframe.
Qed.

(** X15. At most one like per (post, user) pair is an invariant of the whole
    store under every request, creation and deletion of posts included. *)
Theorem handle_keeps_likes_unique (req : Request) st :
  store_likes_unique st → store_likes_unique (snd (handle req st)).
Proof.
  intros Hinv.
  destruct (handle_writes req st) as [E|[_ (m & E & Hframe & Hnew)]];
    rewrite E; [assumption|].
  intros postId p Hp. cbn [posts set_posts] in Hp.
  destruct (decide (postId = target req)) as [->|Hne].
  - by apply Hnew.
  - rewrite Hframe in Hp by assumption. by eapply Hinv.
Qed.

(** X16. On a post whose likes are unique, [UnlikePost] by a caller who liked it
    leaves a post the caller has not liked: the same call again answers 400,
    [NotLiked], and changes nothing. *)
Theorem UnlikePost_then_not_liked st callerId postId p :
  isValidObjectId postId = true →
  posts st !! postId = Some p →
  likes_unique p →
  liked_by callerId p →
  let unliked := UnlikePost callerId postId st in
  status_of (fst unliked) = Some 200
  ∧ (∃ p', posts (snd unliked) !! postId = Some p' ∧ ¬ liked_by callerId p')
  ∧ UnlikePost callerId postId (snd unliked)
    = (Sent (status_json 400 (JsonMsg "Post has not yet been liked")),
       snd unliked).
Proof.
  intros Hv Hp Huniq Hl unliked. subst unliked.
  destruct (UnlikePost_liked _ _ _ _ Hv Hp Hl)
    as (before & like & after & Hsplit & Hbefore & Hlike & ->).
  cbn [fst snd].
  set (p' := Post.with_likes p (before ++ after)).
  assert (Hp' : posts (set_posts st (<[postId := p']> (posts st))) !! postId
                = Some p') by apply lookup_insert_eq.
  assert (Hn : ¬ liked_by callerId p').
  { intros [l [Hin Hu]]. cbn in Hin.
    apply in_app_or in Hin as [Hin|Hin]; [by destruct (Hbefore l Hin)|].
    unfold likes_unique in Huniq. rewrite Hsplit, map_app in Huniq. cbn in Huniq.
    apply NoDup_app in Huniq as (_ & _ & Hnd).
    apply NoDup_cons in Hnd as [Hnotin _]. apply Hnotin.
    apply list_elem_of_In, in_map_iff. exists l. split; [congruence|assumption]. }
  split; [reflexivity|]. split; [by exists p'|].
  by apply (UnlikePost_not_liked _ _ _ _ Hv Hp' Hn).
Qed.

(** ** The listing *)

#[local] Instance newer_first_total : Total newer_first.
Proof. intros a b. unfold newer_first. lia. Qed.

#[local] Instance newer_first_trans : Transitive newer_first.
Proof. intros a b c. unfold newer_first. lia. Qed.

(** X17. [ListPosts] answers 200 with every post of the store exactly once, each
    under its id, newest first, and leaves the store alone; on an empty
    store the answer is the empty list. *)
Theorem ListPosts_newest_first st :
  ∃ found,
    ListPosts st = (SentPosts 200 found, st)
    ∧ StronglySorted newer_first found
    ∧ (∀ postId p, In (postId, p) found ↔ posts st !! postId = Some p)
    ∧ NoDup (List.map fst found)
    ∧ List.length found = size (posts st).
Proof.
  exists (merge_sort newer_first (map_to_list (posts st))).
  pose proof (merge_sort_Permutation newer_first (map_to_list (posts st)))
    as Hperm.
  split; [reflexivity|]. split; [apply StronglySorted_merge_sort; apply _|].
  split; [|split].
  - intros postId p. rewrite <- list_elem_of_In, Hperm.
    apply elem_of_map_to_list.
  - change (List.map fst ?l) with (fst <$> l). rewrite Hperm.
    apply NoDup_fst_map_to_list.
  - rewrite Hperm. apply length_map_to_list.
Qed.

(** X8. [AddComment] by a caller the user directory cannot resolve (a malformed
    id, or no such user) answers 500 and adds nothing, also when the post
    exists. *)
Theorem AddComment_unknown_caller st callerId postId text freshId now :
  text ≠ "" →
  isValidObjectId callerId = false ∨ users st !! callerId = None →
  AddComment callerId postId text freshId now st
  = (Sent (status_send 500 "Server Error"), st).
Proof.
  intros Ht Hu. unfold AddComment, validationResult.
  replace (strict_eq text "") with false
    by (symmetry; by apply strict_eq_false).
  cbn [isEmpty negb].
  unfold try_catch, bind, Post_findById, User_findById, Post_save, deref,
    ret, throw.
  destruct Hu as [Hc|Hu]; destruct (isValidObjectId callerId);
    try discriminate; try reflexivity.
  rewrite Hu. destruct (isValidObjectId postId); reflexivity.
Qed.

End Routes.

(** * The theorems at the sample store *)

Lemma sample_not_liked_by_alice : ¬ liked_by "alice" sample_post.
Proof. intros [like [[<-|[]] Hu]]. discriminate Hu. Defined.

Lemma DeleteComment_removes_first_by_author_witness :
  ∃ before removed after,
    Post.comments sample_post = before ++ removed :: after
    ∧ (∀ c, In c before → Comment.user c ≠ "alice")
    ∧ Comment.user removed = "alice"
    ∧ JsArray.indexOf (JsArray.map Comment.user (Post.comments sample_post))
        "alice"
      = Z.of_nat (List.length before)
    ∧ DeleteComment sample_valid "alice" "p1" "c1" (sample_store "p1")
      = (Sent (json (JsonComments (before ++ after))),
         set_posts (sample_store "p1")
           (<["p1" := Post.with_comments sample_post (before ++ after)]>
              (posts (sample_store "p1"))))
    ∧ (Comment.id removed ≠ "c1" → In comment_old after).
Proof.
  apply (proj1 (DeleteComment_removes_first_by_author sample_valid)
           (sample_store "p1") "alice" "p1" "c1" sample_post comment_old);
    reflexivity.
Defined.

Lemma DeleteComment_scan_in_range_witness :
  let removeIndex :=
    JsArray.indexOf (JsArray.map Comment.user (Post.comments sample_post))
      "alice" in
  let comments' := JsArray.splice (Post.comments sample_post) removeIndex 1 in
  0 ≤ removeIndex < JsArray.length (Post.comments sample_post)
  ∧ JsArray.length comments' = JsArray.length (Post.comments sample_post) - 1
  ∧ DeleteComment sample_valid "alice" "p1" "c1" (sample_store "p1")
    = (Sent (json (JsonComments comments')),
       set_posts (sample_store "p1")
         (<["p1" := Post.with_comments sample_post comments']>
            (posts (sample_store "p1")))).
Proof.
  apply (DeleteComment_scan_in_range sample_valid (sample_store "p1")
           "alice" "p1" "c1" sample_post comment_old);
    reflexivity.
Defined.

Lemma LikePost_unresolved_server_error_witness :
  LikePost sample_valid "alice" "p2" (sample_store "p1")
  = (Sent (status_send 500 "Server Error"), sample_store "p1")
  ∧ error_of (fst (LikePost sample_valid "alice" "p2" (sample_store "p1")))
    = Some ServerError
  ∧ error_of (fst (GetPost sample_valid "p2" (sample_store "p1")))
    = Some NotFound.
Proof.
  apply (LikePost_unresolved_server_error sample_valid (sample_store "p1")
           "alice" "p2").
  right. reflexivity.
Defined.

Lemma GetPost_unresolved_not_found_witness :
  GetPost sample_valid "" (sample_store "p1")
  = (Sent (status_json 404 (JsonMsg "Post not found")), sample_store "p1")
  ∧ error_of (fst (GetPost sample_valid "" (sample_store "p1")))
    = Some NotFound
  ∧ error_of (fst (GetPost sample_valid "" (sample_store "p1")))
    ≠ Some ServerError.
Proof.
  apply (GetPost_unresolved_not_found sample_valid (sample_store "p1") "").
  left. reflexivity.
Defined.

Lemma DeletePost_not_owner_witness :
  DeletePost sample_valid "bob" "p1" (sample_store "p1")
  = (Sent (status_json 401 (JsonMsg "User not authorize")), sample_store "p1")
  ∧ error_of (fst (DeletePost sample_valid "bob" "p1" (sample_store "p1")))
    = Some Unauthorized
  ∧ snd (DeletePost sample_valid "bob" "p1" (sample_store "p1"))
    = sample_store "p1"
  ∧ GetPost sample_valid "p1"
      (snd (DeletePost sample_valid "bob" "p1" (sample_store "p1")))
    = (Sent (json (JsonPost "p1" sample_post)), sample_store "p1").
Proof.
  apply (DeletePost_not_owner sample_valid (sample_store "p1") "bob" "p1"
           sample_post);
    [reflexivity|reflexivity|discriminate].
Defined.

Lemma likes_unique_preserved_witness :
  likes_unique
    (Post.with_likes sample_post [Like.mk "alice"; Like.mk "bob"]).
Proof.
  apply (likes_unique_preserved sample_valid (OpLikePost "alice" "p1")
           (sample_store "p1") "p1" sample_post).
  - reflexivity.
  - apply (bool_decide_unpack _). vm_compute. exact I.
  - vm_compute. reflexivity.
Defined.

Lemma LikePost_then_already_liked_witness :
  let likes' := [Like.mk "alice"; Like.mk "bob"] in
  let first := LikePost sample_valid "alice" "p1" (sample_store "p1") in
  let second := LikePost sample_valid "alice" "p1" (snd first) in
  fst first = Sent (json (JsonLikes likes'))
  ∧ posts (snd first) !! "p1" = Some (Post.with_likes sample_post likes')
  ∧ List.length likes' = 2%nat
  ∧ fst second = Sent (status_json 400 (JsonMsg "Post already liked"))
  ∧ error_of (fst second) = Some AlreadyLiked
  ∧ snd second = snd first.
Proof.
  apply (LikePost_then_already_liked sample_valid (sample_store "p1")
           "alice" "p1" sample_post);
    [reflexivity|reflexivity|exact sample_not_liked_by_alice].
Defined.

Lemma LikePost_UnlikePost_roundtrip_witness :
  UnlikePost sample_valid "alice" "p1"
    (snd (LikePost sample_valid "alice" "p1" (sample_store "p1")))
  = (Sent (json (JsonLikes [Like.mk "bob"])), sample_store "p1").
Proof.
  apply (LikePost_UnlikePost_roundtrip sample_valid (sample_store "p1")
           "alice" "p1" sample_post);
    [reflexivity|reflexivity|exact sample_not_liked_by_alice].
Defined.

Lemma UnlikePost_removes_first_like_witness :
  (error_of (fst (UnlikePost sample_valid "bob" "p1" (sample_store "p1")))
   = Some NotLiked
   ↔ ¬ liked_by "bob" sample_post)
  ∧ (¬ liked_by "bob" sample_post →
     UnlikePost sample_valid "bob" "p1" (sample_store "p1")
     = (Sent (status_json 400 (JsonMsg "Post has not yet been liked")),
        sample_store "p1"))
  ∧ (liked_by "bob" sample_post →
     ∃ before like after,
       Post.likes sample_post = before ++ like :: after
       ∧ (∀ l, In l before → Like.user l ≠ "bob")
       ∧ Like.user like = "bob"
       ∧ UnlikePost sample_valid "bob" "p1" (sample_store "p1")
         = (Sent (json (JsonLikes (before ++ after))),
            set_posts (sample_store "p1")
              (<["p1" := Post.with_likes sample_post (before ++ after)]>
                 (posts (sample_store "p1"))))).
Proof.
  apply (UnlikePost_removes_first_like sample_valid (sample_store "p1")
           "bob" "p1" sample_post);
    reflexivity.
Defined.

(** * The further properties at the sample store *)

Lemma sample_liked_by_bob : liked_by "bob" sample_post.
Proof. exists (Like.mk "bob"). split; [by left|reflexivity]. Defined.

Lemma sample_likes_unique : likes_unique sample_post.
Proof. apply (bool_decide_unpack _). vm_compute. exact I. Defined.

Lemma sample_store_likes_unique : store_likes_unique (sample_store "p1").
Proof.
  intros postId p Hp. cbn [sample_store posts] in Hp.
  apply lookup_singleton_Some in Hp as [_ <-].
  exact sample_likes_unique.
Defined.

Lemma CreatePost_then_GetPost_witness :
  let newPost := Post.mk "hi" "Alice" "alice.png" "alice" [] [] 5 in
  let created :=
    CreatePost sample_valid "alice" "hi" "p2" 5 (sample_store "p1") in
  fst created = Sent (json (JsonPost "p2" newPost))
  ∧ GetPost sample_valid "p2" (snd created)
    = (Sent (json (JsonPost "p2" newPost)), snd created)
  ∧ (∀ other, other ≠ "p2" →
       posts (snd created) !! other = posts (sample_store "p1") !! other).
Proof.
  apply (CreatePost_then_GetPost sample_valid (sample_store "p1")
           "alice" "hi" "p2" 5 (User.mk "Alice" "alice.png"));
    [discriminate|reflexivity|reflexivity|reflexivity].
Defined.

Lemma CreatePost_rejected_witness :
  CreatePost sample_valid "carol" "hi" "p2" 5 (sample_store "p1")
  = (Sent (status_send 500 "Server Error"), sample_store "p1").
Proof.
  apply (proj2 (CreatePost_rejected sample_valid (sample_store "p1")
                  "carol" "hi" "p2" 5));
    [discriminate|right; reflexivity].
Defined.

Lemma DeletePost_owner_witness :
  let deleted := DeletePost sample_valid "alice" "p1" (sample_store "p1") in
  deleted
  = (Sent (json (JsonMsg "Post removed")),
     set_posts (sample_store "p1") (delete "p1" (posts (sample_store "p1"))))
  ∧ GetPost sample_valid "p1" (snd deleted)
    = (Sent (status_json 404 (JsonMsg "Post not found")), snd deleted)
  ∧ DeletePost sample_valid "alice" "p1" (snd deleted)
    = (Sent (status_json 404 (JsonMsg "Post not found")), snd deleted)
  ∧ (∀ other, other ≠ "p1" →
       posts (snd deleted) !! other = posts (sample_store "p1") !! other).
Proof.
  apply (DeletePost_owner sample_valid (sample_store "p1") "alice" "p1"
           sample_post);
    reflexivity.
Defined.

Lemma DeletePost_unresolved_not_found_witness :
  DeletePost sample_valid "alice" "p2" (sample_store "p1")
  = (Sent (status_json 404 (JsonMsg "Post not found")), sample_store "p1")
  ∧ error_of (fst (DeletePost sample_valid "alice" "p2" (sample_store "p1")))
    = Some NotFound.
Proof.
  apply (DeletePost_unresolved_not_found sample_valid (sample_store "p1")
           "alice" "p2").
  right. reflexivity.
Defined.

Lemma unresolved_post_server_error_witness :
  UnlikePost sample_valid "bob" "" (sample_store "p1")
  = (Sent (status_send 500 "Server Error"), sample_store "p1")
  ∧ AddComment sample_valid "bob" "" "nice" "c3" 30 (sample_store "p1")
    = (Sent (status_send 500 "Server Error"), sample_store "p1")
  ∧ DeleteComment sample_valid "bob" "" "c1" (sample_store "p1")
    = (Sent (status_send 500 "Server Error"), sample_store "p1").
Proof.
  apply (unresolved_post_server_error sample_valid (sample_store "p1")
           "bob" "" "nice" "c3" 30 "c1");
    [left; reflexivity|discriminate].
Defined.

Lemma AddComment_prepends_witness :
  let c := Comment.mk "c3" "third" "Alice" "alice.png" "alice" 30 in
  let added :=
    AddComment sample_valid "alice" "p1" "third" "c3" 30 (sample_store "p1") in
  ∃ p',
    posts (snd added) !! "p1" = Some p'
    ∧ fst added = Sent (json (JsonComments (Post.comments p')))
    ∧ Post.comments p' = c :: Post.comments sample_post
    ∧ JsArray.length (Post.comments p')
      = JsArray.length (Post.comments sample_post) + 1
    ∧ Post.likes p' = Post.likes sample_post
    ∧ same_header sample_post p'.
Proof.
  apply (AddComment_prepends sample_valid (sample_store "p1")
           "alice" "p1" "third" "c3" 30 (User.mk "Alice" "alice.png") sample_post);
    [reflexivity|reflexivity|reflexivity|reflexivity|discriminate].
Defined.

Lemma AddComment_DeleteComment_roundtrip_witness :
  DeleteComment sample_valid "alice" "p1" "c3"
    (snd (AddComment sample_valid "alice" "p1" "third" "c3" 30
            (sample_store "p1")))
  = (Sent (json (JsonComments (Post.comments sample_post))), sample_store "p1").
Proof.
  apply (AddComment_DeleteComment_roundtrip sample_valid (sample_store "p1")
           "alice" "p1" "third" "c3" 30 (User.mk "Alice" "alice.png") sample_post);
    [reflexivity|reflexivity|reflexivity|reflexivity|discriminate].
Defined.

Lemma AddComment_unknown_caller_witness :
  AddComment sample_valid "carol" "p1" "nice" "c3" 30 (sample_store "p1")
  = (Sent (status_send 500 "Server Error"), sample_store "p1").
Proof.
  apply (AddComment_unknown_caller sample_valid (sample_store "p1")
           "carol" "p1" "nice" "c3" 30);
    [discriminate|right; reflexivity].
Defined.

Lemma DeleteComment_rejected_witness :
  DeleteComment sample_valid "bob" "p1" "c1" (sample_store "p1")
  = (Sent (status_json 401 (JsonMsg "User is not authorized")),
     sample_store "p1").
Proof.
  apply (proj2 (DeleteComment_rejected sample_valid (sample_store "p1")
                  "bob" "p1" "c1" sample_post eq_refl eq_refl)
           [comment_new] comment_old []);
    [reflexivity| |reflexivity|discriminate].
  intros c [<-|[]]. discriminate.
Defined.

Lemma DeleteComment_removes_target_when_first_witness :
  DeleteComment sample_valid "alice" "p1" "c2" (sample_store "p1")
  = (Sent (json (JsonComments [comment_old])),
     set_posts (sample_store "p1")
       (<["p1" := Post.with_comments sample_post [comment_old]]>
          (posts (sample_store "p1")))).
Proof.
  apply (DeleteComment_removes_target_when_first sample_valid
           (sample_store "p1") "alice" "p1" "c2" sample_post
           [] comment_new [comment_old]);
    [reflexivity|reflexivity|reflexivity|intros c []|reflexivity|reflexivity].
Defined.

Lemma handle_failure_unchanged_witness :
  snd (handle sample_valid (ReqOp (OpLikePost "bob" "p1")) (sample_store "p1"))
  = sample_store "p1".
Proof.
  apply (handle_failure_unchanged sample_valid
           (ReqOp (OpLikePost "bob" "p1")) (sample_store "p1")).
  vm_compute. discriminate.
Defined.

Lemma handle_keeps_likes_unique_witness :
  store_likes_unique
    (snd (handle sample_valid (ReqOp (OpLikePost "alice" "p1"))
            (sample_store "p1"))).
Proof.
  apply (handle_keeps_likes_unique sample_valid
           (ReqOp (OpLikePost "alice" "p1")) (sample_store "p1")).
  exact sample_store_likes_unique.
Defined.

Lemma run_spares_others_witness :
  others_likes "alice" (Post.with_comments sample_post [comment_old])
  = others_likes "alice" sample_post
  ∧ others_comments "alice" (Post.with_comments sample_post [comment_old])
    = others_comments "alice" sample_post.
Proof.
  apply (run_spares_others sample_valid (OpDeleteComment "alice" "p1" "c1")
           (sample_store "p1") "p1" sample_post
           (Post.with_comments sample_post [comment_old]));
    [reflexivity|vm_compute; reflexivity].
Defined.

Lemma UnlikePost_then_not_liked_witness :
  let unliked := UnlikePost sample_valid "bob" "p1" (sample_store "p1") in
  status_of (fst unliked) = Some 200
  ∧ (∃ p', posts (snd unliked) !! "p1" = Some p' ∧ ¬ liked_by "bob" p')
  ∧ UnlikePost sample_valid "bob" "p1" (snd unliked)
    = (Sent (status_json 400 (JsonMsg "Post has not yet been liked")),
       snd unliked).
Proof.
  apply (UnlikePost_then_not_liked sample_valid (sample_store "p1")
           "bob" "p1" sample_post);
    [reflexivity|reflexivity|exact sample_likes_unique
    |exact sample_liked_by_bob].
Defined.

Lemma run_keeps_posts_witness :
  ∃ p',
    posts (snd (run sample_valid (OpUnlikePost "bob" "p1") (sample_store "p1")))
      !! "p1" = Some p'
    ∧ same_header sample_post p'.
Proof.
  apply (proj2 (run_keeps_posts sample_valid (OpUnlikePost "bob" "p1")
                  (sample_store "p1") "p1") sample_post).
  reflexivity.
Defined.
